(** * The openai-sts relay: audio framing, commit scheduling and event relay

    A shallow embedding of the WebSocket relay of [src/server.js] and of the
    server variant found in [src/unnamed/part_001] (server-side voice
    activity detection, accumulating relay).  Every connection handler of
    the source closes over a handful of [let] variables; here they form a
    record, each callback is a function from that record to the new record
    and the list of effects it performed, in program order.

    The two sockets are the boundary of the model.  A call of [send] is
    recorded as an effect with the message it was given; what the [ws]
    library does with it, and the exceptions it may raise on a socket that
    is not open, are outside.  What arrives on a socket is an event.

    The decoding of translated audio in the React client of the same two
    files is embedded as well. *)

From Stdlib Require Import ZArith QArith Lia List String Bool.
From stdpp Require Import gmap strings list.
From Equations Require Import Equations.
Import ListNotations.
Open Scope Z_scope.

(** ** Audio configuration (server.js, lines 7-15)

    The source computes the derived sizes in double precision and takes
    [Math.floor]; with these constants every product is an exact integer,
    so the same values are obtained with integer division. *)

Definition SAMPLE_RATE : Z := 24000.
Definition CHANNELS : Z := 1.
Definition BITS : Z := 16.
Definition CHUNK_MS : Z := 500.
Definition BYTES_PER_SAMPLE : Z := BITS / 8.
Definition BYTES_PER_SECOND : Z := SAMPLE_RATE * BYTES_PER_SAMPLE * CHANNELS.
Definition CHUNK_BYTES : Z := BYTES_PER_SECOND * CHUNK_MS / 1000.
Definition MIN_BUFFER_SIZE : Z := BYTES_PER_SECOND * 2 / 10.

(** [Math.floor(BYTES_PER_SECOND * 0.1)], computed afresh in
    [streamAudioToOpenAI] and in [stopSession]. *)
Definition minRequiredBytes : Z := BYTES_PER_SECOND * 1 / 10.

(** ** Data on the wire *)

(** A Node [Buffer], or the JSON array of byte values the client sends. *)
Abbreviation bytes := (list Byte.byte).

(** [buf.length] *)
Definition len (buf : bytes) : Z := Z.of_nat (length buf).

(** Values interpolated into console lines. *)
Inductive js_value :=
| JNum (n : Z)
| JStr (s : string)
| JBool (b : bool).

(** What the client sends: the text of a WebSocket message.  Either
    [JSON.parse(message)], or reading [data.type] from its result, throws
    an error with the given [message] text, or the handler sees an object
    with these fields.  [audio = None] is a message without a usable
    [audio] field ([Buffer.from] throws on it). *)
Inductive ws_data :=
| ws_unparseable (message : string)
| ws_json (type : string) (sessionId : option string) (audio : option bytes).

(** What the remote peer sends.  One constructor per [message.type] that
    either server inspects, with the fields that the handlers read.  Base64
    text is written as the bytes it encodes: the [delta] of an audio delta
    is the empty string exactly when it encodes no bytes. *)
Inductive openai_data :=
| openai_unparseable
| session_updated
| response_created
| response_audio_delta (audio : option bytes) (delta : option bytes)
| response_transcript_delta (transcript : option string)
| response_audio_transcript_delta (delta : option string)
| response_output_item_done (item_is_message : bool)
| response_done
| input_audio_buffer_speech_started
| input_audio_buffer_speech_stopped
| input_audio_buffer_committed
| conversation_item_created
| openai_error (error_message : option string)
| openai_other (type : string).

(** [message.type] *)
Definition message_type (m : openai_data) : string :=
  match m with
  | openai_unparseable => ""
  | session_updated => "session.updated"
  | response_created => "response.created"
  | response_audio_delta _ _ => "response.audio.delta"
  | response_transcript_delta _ => "response.transcript.delta"
  | response_audio_transcript_delta _ => "response.audio_transcript.delta"
  | response_output_item_done _ => "response.output_item.done"
  | response_done => "response.done"
  | input_audio_buffer_speech_started => "input_audio_buffer.speech_started"
  | input_audio_buffer_speech_stopped => "input_audio_buffer.speech_stopped"
  | input_audio_buffer_committed => "input_audio_buffer.committed"
  | conversation_item_created => "conversation.item.created"
  | openai_error _ => "error"
  | openai_other t => t
  end.

(** Messages handed to [openaiWs.send].  The [audio] of an append is the
    chunk whose base64 text the message carries. *)
Inductive openai_message :=
| session_update (voice : string) (threshold_tenths silence_duration_ms : Z)
| input_audio_buffer_append (audio : bytes)
| input_audio_buffer_commit
| response_create.

(** Messages handed to [ws.send].  A field whose value is [undefined] is
    left out by [JSON.stringify]: that is [None]. *)
Inductive client_message :=
| session_ready
| translated_audio (audio : option bytes)
| translation (text : option string)
| speech_started
| speech_stopped
| session_stopped
| error (message : string).

(** Effects of a callback, in the order the callback performs them. *)
Inductive action :=
| console_log (text : string) (args : list js_value)
| console_error (text : string)
| openai_send (m : openai_message)
| ws_send (m : client_message)
| new_WebSocket
| openai_close
| setTimeout (ms : Z)
| connections_set (sessionId : option string)
| connections_delete
| uncaught (what : string).

(** Callbacks of one connection, as the event loop delivers them.  A
    client message comes with the reading of [Date.now()] during its
    handling; [openai_open] names the [sessionId] its [init] closed over;
    [timeout] is the callback that [stopSession] scheduled. *)
Inductive event :=
| ws_message (now : Z) (message : ws_data)
| ws_close
| openai_open (sessionId : option string)
| openai_message_event (data : openai_data)
| openai_closed
| openai_failed
| timeout.

(** Sequencing of two steps of a callback: the effects are appended. *)
Definition and_then {S : Type} (r : S * list action)
    (k : S -> S * list action) : S * list action :=
  let r2 := k (fst r) in (fst r2, snd r ++ snd r2).

Notation "r >> k" := (and_then r k) (at level 61, left associativity).

(** Effects of one kind, picked out of a trace. *)
Definition sent_to_openai (out : list action) : list openai_message :=
  omap (fun a => match a with openai_send m => Some m | _ => None end) out.

Definition sent_to_client (out : list action) : list client_message :=
  omap (fun a => match a with ws_send m => Some m | _ => None end) out.

(** The audio of the appends, in the order sent. *)
Definition appended_audio (ms : list openai_message) : bytes :=
  concat (omap (fun m => match m with
                         | input_audio_buffer_append a => Some a
                         | _ => None
                         end) ms).

Definition is_commit (m : openai_message) : bool :=
  match m with input_audio_buffer_commit => true | _ => false end.

Definition is_response_create (m : openai_message) : bool :=
  match m with response_create => true | _ => false end.

Definition is_translated_audio (m : client_message) : bool :=
  match m with translated_audio _ => true | _ => false end.


(** ** src/server.js: framing relay with a commit scheduler *)

Module ServerJs.

(** The variables of one [wss.on("connection")] closure (lines 35-40).
    [openaiWs] is [true] when the variable holds a socket, [false] when it
    is [null]. *)
Record session := {
  openaiWs : bool;
  isSessionActive : bool;
  responseInProgress : bool;
  audioBuffer : bytes;
  lastCommitTime : Z;
  totalAudioSent : Z
}.

Definition initial : session :=
  {| openaiWs := false; isSessionActive := false; responseInProgress := false;
     audioBuffer := []; lastCommitTime := 0; totalAudioSent := 0 |}.

Definition set_openaiWs (v : bool) (s : session) : session :=
  {| openaiWs := v; isSessionActive := isSessionActive s;
     responseInProgress := responseInProgress s; audioBuffer := audioBuffer s;
     lastCommitTime := lastCommitTime s; totalAudioSent := totalAudioSent s |}.

Definition set_isSessionActive (v : bool) (s : session) : session :=
  {| openaiWs := openaiWs s; isSessionActive := v;
     responseInProgress := responseInProgress s; audioBuffer := audioBuffer s;
     lastCommitTime := lastCommitTime s; totalAudioSent := totalAudioSent s |}.

Definition set_responseInProgress (v : bool) (s : session) : session :=
  {| openaiWs := openaiWs s; isSessionActive := isSessionActive s;
     responseInProgress := v; audioBuffer := audioBuffer s;
     lastCommitTime := lastCommitTime s; totalAudioSent := totalAudioSent s |}.

Definition set_audioBuffer (v : bytes) (s : session) : session :=
  {| openaiWs := openaiWs s; isSessionActive := isSessionActive s;
     responseInProgress := responseInProgress s; audioBuffer := v;
     lastCommitTime := lastCommitTime s; totalAudioSent := totalAudioSent s |}.

Definition set_lastCommitTime (v : Z) (s : session) : session :=
  {| openaiWs := openaiWs s; isSessionActive := isSessionActive s;
     responseInProgress := responseInProgress s; audioBuffer := audioBuffer s;
     lastCommitTime := v; totalAudioSent := totalAudioSent s |}.

Definition set_totalAudioSent (v : Z) (s : session) : session :=
  {| openaiWs := openaiWs s; isSessionActive := isSessionActive s;
     responseInProgress := responseInProgress s; audioBuffer := audioBuffer s;
     lastCommitTime := lastCommitTime s; totalAudioSent := v |}.

(** [openaiWs.on("open")] sends this configuration (lines 82-103). *)
Definition configuration : openai_message := session_update "alloy" 5 500.

(** [initializeOpenAISession] (lines 67-206): a socket is created and its
    callbacks are registered; they are the [openai_*] events.  The
    constructor is called on a constant, well-formed URL, so the [catch]
    of this function is not entered. *)
Definition initializeOpenAISession (s : session) : session * list action :=
  (set_openaiWs true s, [new_WebSocket]).

(** [openaiWs.on("open")] (lines 79-114).  The callback dereferences the
    closure variable [openaiWs]; when a timer has set it to [null] the
    [TypeError] leaves the callback, nothing else having run. *)
Definition on_open (sessionId : option string) (s : session)
    : session * list action :=
  if openaiWs s then
    (set_isSessionActive true s,
     [console_log "Connected to OpenAI Realtime API" [];
      openai_send configuration;
      connections_set sessionId;
      ws_send session_ready])
  else
    (s, [console_log "Connected to OpenAI Realtime API" [];
         uncaught "TypeError"]).

(** [openaiWs.on("message")] (lines 116-179). *)
Definition on_openai_message (message : openai_data) (s : session)
    : session * list action :=
  match message with
  | openai_unparseable =>
      (s, [console_error "Error parsing OpenAI message:"])
  | response_created =>
      (set_responseInProgress true s, [])
  | response_audio_delta audio _ =>
      (s, [ws_send (translated_audio audio)])
  | response_transcript_delta transcript =>
      (s, [ws_send (translation transcript)])
  | response_done =>
      (set_responseInProgress false s, [])
  | input_audio_buffer_speech_started =>
      (s, [ws_send speech_started])
  | input_audio_buffer_speech_stopped =>
      (s, [ws_send speech_stopped])
  | openai_error e =>
      (set_responseInProgress false s,
       console_error "OpenAI Realtime API error:" ::
       match e with
       | Some m => [ws_send (error ("Translation error: " ++ m))]
       | None => [console_error "Error parsing OpenAI message:"]
       end)
  | _ => (s, [])
  end.

(** [openaiWs.on("close")] (lines 181-185). *)
Definition on_openai_close (s : session) : session * list action :=
  (set_responseInProgress false (set_isSessionActive false s),
   [console_log "OpenAI Realtime API connection closed" []]).

(** [openaiWs.on("error")] (lines 187-196). *)
Definition on_openai_error (s : session) : session * list action :=
  (set_responseInProgress false s,
   [console_error "OpenAI Realtime API error:";
    ws_send (error "OpenAI connection error")]).

(** One turn of the [while] loop of lines 221-236: a chunk of
    [CHUNK_BYTES] bytes is cut off the front of the buffer and sent. *)
Definition send_chunk (s : session) : session * list action :=
  let chunk := take (Z.to_nat CHUNK_BYTES) (audioBuffer s) in
  let s1 := set_audioBuffer (drop (Z.to_nat CHUNK_BYTES) (audioBuffer s)) s in
  let s2 := set_totalAudioSent (totalAudioSent s1 + CHUNK_BYTES) s1 in
  (s2, [openai_send (input_audio_buffer_append chunk);
        console_log "Sent audio chunk: ${CHUNK_BYTES} bytes (${CHUNK_MS}ms), total sent: ${totalAudioSent} bytes"
          [JNum CHUNK_BYTES; JNum CHUNK_MS; JNum (totalAudioSent s2)]]).

(** [while (audioBuffer.length >= CHUNK_BYTES) { ... }] *)
Equations? send_chunks (s : session) : session * list action
    by wf (length (audioBuffer s)) lt :=
send_chunks s with Z_le_gt_dec CHUNK_BYTES (len (audioBuffer s)) => {
  | left _ =>
      let r := send_chunk s in
      let r2 := send_chunks (fst r) in
      (fst r2, snd r ++ snd r2)
  | right _ => (s, []) }.
Proof.
  cbn. rewrite length_drop. unfold len in *.
  change CHUNK_BYTES with 24000 in *. lia.
Qed.

(** Lines 244-256: what is left in the buffer is sent and the buffer is
    emptied. *)
Definition send_remaining (s : session) : session * list action :=
  if 0 <? len (audioBuffer s) then
    (set_audioBuffer []
       (set_totalAudioSent (totalAudioSent s + len (audioBuffer s)) s),
     [openai_send (input_audio_buffer_append (audioBuffer s));
      console_log "Sent remaining audio: ${audioBuffer.length} bytes"
        [JNum (len (audioBuffer s))]])
  else (s, []).

(** Lines 258-278: the commit is sent only after enough audio. *)
Definition commit_if_enough (s : session) : session * list action :=
  (if minRequiredBytes <=? totalAudioSent s
   then set_totalAudioSent 0 s else s,
   [console_log "minRequiredBytes" [JNum minRequiredBytes];
    console_log "totalAudioSent" [JNum (totalAudioSent s)]] ++
   if minRequiredBytes <=? totalAudioSent s then
     [openai_send input_audio_buffer_commit;
      console_log "✅ Committed audio buffer (sent ${totalAudioSent} bytes, required ${minRequiredBytes} bytes)"
        [JNum (totalAudioSent s); JNum minRequiredBytes]]
   else
     [console_log "❌ Skipping commit - not enough audio (sent ${totalAudioSent} bytes, required ${minRequiredBytes} bytes)"
        [JNum (totalAudioSent s); JNum minRequiredBytes]]).

(** Lines 282-296: a response is requested unless one is in progress. *)
Definition create_response (s : session) : session * list action :=
  if responseInProgress s then (s, [])
  else (set_responseInProgress true s,
        [openai_send response_create;
         console_log "Created response for translation" []]).

(** Lines 238-297, the auto-commit block that ends every audio call. *)
Definition auto_commit (now : Z) (s : session) : session * list action :=
  if (MIN_BUFFER_SIZE <=? len (audioBuffer s))
     && (2000 <? now - lastCommitTime s)
  then
    send_remaining s >> commit_if_enough
      >> (fun s1 => (set_lastCommitTime now s1, []))
      >> create_response
  else (s, []).

(** [streamAudioToOpenAI] (lines 208-301).  [Buffer.from] throws on a
    missing payload, before anything is changed; the [catch] logs it. *)
Definition streamAudioToOpenAI (now : Z) (audioData : option bytes)
    (s : session) : session * list action :=
  if negb (openaiWs s) || negb (isSessionActive s) then (s, [])
  else
    match audioData with
    | None => (s, [console_error "Error streaming audio:"])
    | Some newData =>
        let s1 := set_audioBuffer (audioBuffer s ++ newData) s in
        (s1, [console_log "Received audio chunk: ${newData.length} bytes, total buffer: ${audioBuffer.length} bytes"
                [JNum (len newData); JNum (len (audioBuffer s1))]])
          >> send_chunks >> auto_commit now
    end.

(** [stopSession] (lines 303-363).  The sends do not throw, so the
    [catch] of this function is not entered. *)
Definition stopSession (s : session) : session * list action :=
  if openaiWs s && isSessionActive s then
    (if 0 <? len (audioBuffer s)
     then
       (set_totalAudioSent (totalAudioSent s + len (audioBuffer s)) s,
        [openai_send (input_audio_buffer_append (audioBuffer s));
         console_log "Sent final audio: ${audioBuffer.length} bytes, total: ${totalAudioSent} bytes"
           [JNum (len (audioBuffer s));
            JNum (totalAudioSent s + len (audioBuffer s))]])
     else (s, []))
    >> (fun s1 =>
          (s1, if minRequiredBytes <=? totalAudioSent s1 then
                 [openai_send input_audio_buffer_commit;
                  console_log "✅ Final commit (sent ${totalAudioSent} bytes)"
                    [JNum (totalAudioSent s1)]]
               else
                 [console_log "❌ Skipping final commit - not enough audio (${totalAudioSent} bytes)"
                    [JNum (totalAudioSent s1)]]))
    >> (fun s1 => (s1, [setTimeout 1000; ws_send session_stopped]))
  else (s, []).

(** The callback given to [setTimeout] in [stopSession] (lines 338-345). *)
Definition on_timeout (s : session) : session * list action :=
  if openaiWs s then
    (set_openaiWs false
       (set_responseInProgress false (set_isSessionActive false s)),
     [openai_close])
  else (s, []).

(** [ws.on("message")] (lines 42-57). *)
Definition on_message (now : Z) (message : ws_data) (s : session)
    : session * list action :=
  match message with
  | ws_unparseable msg =>
      (s, [console_error "Error processing message:"; ws_send (error msg)])
  | ws_json type sessionId audio =>
      if (type =? "init")%string then initializeOpenAISession s
      else if (type =? "audio")%string && openaiWs s && isSessionActive s
      then streamAudioToOpenAI now audio s
      else if (type =? "stop")%string then stopSession s
      else (s, [])
  end.

(** [ws.on("close")] (lines 59-65). *)
Definition on_close (s : session) : session * list action :=
  (s, [console_log "WebSocket connection closed" []])
    >> (fun s1 => if openaiWs s1 then stopSession s1 else (s1, []))
    >> (fun s1 => (s1, [connections_delete])).

(** One callback of the connection. *)
Definition step (s : session) (e : event) : session * list action :=
  match e with
  | ws_message now message => on_message now message s
  | ws_close => on_close s
  | openai_open sessionId => on_open sessionId s
  | openai_message_event data => on_openai_message data s
  | openai_closed => on_openai_close s
  | openai_failed => on_openai_error s
  | timeout => on_timeout s
  end.

(** A run: the callbacks of a list of events, one after the other. *)
Fixpoint run (s : session) (es : list event) : session * list action :=
  match es with
  | [] => (s, [])
  | e :: es' => step s e >> (fun s1 => run s1 es')
  end.

(** The states a connection can be in. *)
Definition reachable (s : session) : Prop :=
  exists es, fst (run initial es) = s.

(** The session is ready to stream: the guard of [streamAudioToOpenAI]
    and of [stopSession] passes. *)
Definition ready (s : session) : Prop :=
  openaiWs s = true /\ isSessionActive s = true.

End ServerJs.

(** ** src/unnamed/part_001: the server with server-side VAD

    The second server of the repository (lines 432-780 of the file).  It
    forwards client audio unframed and lets the remote peer decide when to
    commit; its relay accumulates the audio of a response. *)

Module VadServer.

(** The variables of one connection closure (lines 466-470). *)
Record session := {
  openaiWs : bool;
  isSessionActive : bool;
  responseInProgress : bool;
  currentTranslation : string;
  audioChunks : list bytes
}.

Definition initial : session :=
  {| openaiWs := false; isSessionActive := false; responseInProgress := false;
     currentTranslation := ""; audioChunks := [] |}.

Definition set_openaiWs (v : bool) (s : session) : session :=
  {| openaiWs := v; isSessionActive := isSessionActive s;
     responseInProgress := responseInProgress s;
     currentTranslation := currentTranslation s;
     audioChunks := audioChunks s |}.

Definition set_isSessionActive (v : bool) (s : session) : session :=
  {| openaiWs := openaiWs s; isSessionActive := v;
     responseInProgress := responseInProgress s;
     currentTranslation := currentTranslation s;
     audioChunks := audioChunks s |}.

Definition set_responseInProgress (v : bool) (s : session) : session :=
  {| openaiWs := openaiWs s; isSessionActive := isSessionActive s;
     responseInProgress := v;
     currentTranslation := currentTranslation s;
     audioChunks := audioChunks s |}.

Definition set_currentTranslation (v : string) (s : session) : session :=
  {| openaiWs := openaiWs s; isSessionActive := isSessionActive s;
     responseInProgress := responseInProgress s;
     currentTranslation := v;
     audioChunks := audioChunks s |}.

Definition set_audioChunks (v : list bytes) (s : session) : session :=
  {| openaiWs := openaiWs s; isSessionActive := isSessionActive s;
     responseInProgress := responseInProgress s;
     currentTranslation := currentTranslation s;
     audioChunks := v |}.

(** Lines 522-543. *)
Definition configuration : openai_message := session_update "shimmer" 3 800.

(** The length of the base64 text of a buffer. *)
Definition base64_length (b : bytes) : Z := 4 * ((len b + 2) / 3).

(** [initializeOpenAISession] (lines 507-698). *)
Definition initializeOpenAISession (s : session) : session * list action :=
  (set_openaiWs true s, [new_WebSocket]).

(** [openaiWs.on("open")] (lines 519-556). *)
Definition on_open (sessionId : option string) (s : session)
    : session * list action :=
  if openaiWs s then
    (set_isSessionActive true s,
     [console_log "Connected to OpenAI Realtime API" [];
      openai_send configuration;
      connections_set sessionId;
      console_log "OpenAI session is now active, ready to receive audio" [];
      ws_send session_ready;
      console_log "Sent session_ready message to frontend" []])
  else
    (s, [console_log "Connected to OpenAI Realtime API" [];
         uncaught "TypeError"]).

(** [case "response.created"] (lines 568-573). *)
Definition on_response_created (s : session) : session * list action :=
  (set_audioChunks []
     (set_currentTranslation "" (set_responseInProgress true s)),
   [console_log "OpenAI creating response" []]).

(** [case "response.audio.delta"] (lines 575-583): a delta that is present
    and not the empty string is decoded and pushed. *)
Definition on_audio_delta (delta : option bytes) (s : session)
    : session * list action :=
  match delta with
  | Some (b :: audioBytes) =>
      let s1 := set_audioChunks (audioChunks s ++ [b :: audioBytes]) s in
      (s1, [console_log "Received audio delta: ${message.delta ? message.delta.length : 0} bytes"
              [JNum (base64_length (b :: audioBytes))];
            console_log "Accumulated audio chunk, total chunks: ${audioChunks.length}"
              [JNum (Z.of_nat (length (audioChunks s1)))]])
  | _ =>
      (s, [console_log "Received audio delta: ${message.delta ? message.delta.length : 0} bytes"
             [JNum 0]])
  end.

(** [case "response.audio_transcript.delta"] (lines 591-603). *)
Definition on_transcript_delta (delta : option string) (s : session)
    : session * list action :=
  match delta with
  | Some (String c d) =>
      let s1 :=
        set_currentTranslation (currentTranslation s ++ String c d) s in
      (s1, [console_log "Translation fragment: ${message.delta}"
              [JStr (String c d)];
            console_log "Full translation so far: ${currentTranslation}"
              [JStr (currentTranslation s1)];
            ws_send (translation (Some (currentTranslation s1)))])
  | _ => (s, [])
  end.

(** [case "response.done"] (lines 605-622). *)
Definition on_response_done (s : session) : session * list action :=
  (set_responseInProgress false s, [console_log "Response completed" []])
    >> (fun s1 =>
          if 0 <? Z.of_nat (length (audioChunks s1)) then
            let completeAudio := concat (audioChunks s1) in
            (set_audioChunks [] s1,
             [console_log "Sending complete audio: ${audioArray.length} bytes from ${audioChunks.length} chunks"
                [JNum (len completeAudio);
                 JNum (Z.of_nat (length (audioChunks s1)))];
              ws_send (translated_audio (Some completeAudio))])
          else (s1, [])).

(** [openaiWs.on("message")] (lines 558-671). *)
Definition on_openai_message (message : openai_data) (s : session)
    : session * list action :=
  match message with
  | openai_unparseable =>
      (s, [console_error "Error parsing OpenAI message:"])
  | _ =>
      (s, [console_log "OpenAI message type: ${message.type}"
             [JStr (message_type message)]])
        >> (fun s =>
              match message with
              | session_updated =>
                  (s, [console_log "OpenAI session updated successfully" []])
              | response_created => on_response_created s
              | response_audio_delta _ delta => on_audio_delta delta s
              | response_output_item_done item_is_message =>
                  (s, if item_is_message
                      then [console_log "Translation completed" []] else [])
              | response_audio_transcript_delta delta =>
                  on_transcript_delta delta s
              | response_done => on_response_done s
              | input_audio_buffer_speech_started =>
                  (s, [console_log "Speech detected - user started speaking" [];
                       ws_send speech_started])
              | input_audio_buffer_speech_stopped =>
                  (s, [console_log "Speech ended - processing translation" [];
                       ws_send speech_stopped])
              | input_audio_buffer_committed =>
                  (s, [console_log "Audio buffer committed by OpenAI VAD" []])
              | conversation_item_created =>
                  (s, [console_log "Conversation item created" []])
              | openai_error e =>
                  (set_responseInProgress false s,
                   console_error "OpenAI Realtime API error:" ::
                   match e with
                   | Some m => [ws_send (error ("Translation error: " ++ m))]
                   | None => [console_error "Error parsing OpenAI message:"]
                   end)
              | _ =>
                  (s, [console_log "Unhandled OpenAI message type: ${message.type}"
                         [JStr (message_type message)]])
              end)
  end.

(** [openaiWs.on("close")] (lines 673-677). *)
Definition on_openai_close (s : session) : session * list action :=
  (set_responseInProgress false (set_isSessionActive false s),
   [console_log "OpenAI Realtime API connection closed" []]).

(** [openaiWs.on("error")] (lines 679-688). *)
Definition on_openai_error (s : session) : session * list action :=
  (set_responseInProgress false s,
   [console_error "OpenAI Realtime API error:";
    ws_send (error "OpenAI connection error")]).

(** [streamAudioToOpenAI] (lines 700-730). *)
Definition streamAudioToOpenAI (audioData : option bytes) (s : session)
    : session * list action :=
  if negb (openaiWs s) || negb (isSessionActive s) then
    (s, [console_log "Cannot stream audio - openaiWs: ${!!openaiWs}, isSessionActive: ${isSessionActive}"
           [JBool (openaiWs s); JBool (isSessionActive s)]])
  else
    match audioData with
    | None => (s, [console_log "No audio data received" []])
    | Some newData =>
        (s, [console_log "Received audio chunk: ${newData.length} bytes"
               [JNum (len newData)];
             openai_send (input_audio_buffer_append newData);
             console_log "Sent ${newData.length} bytes to OpenAI"
               [JNum (len newData)]])
    end.

(** [stopSession] (lines 732-762). *)
Definition stopSession (s : session) : session * list action :=
  if openaiWs s && isSessionActive s then
    (s, [console_log "Stopping translation session" [];
         setTimeout 500;
         ws_send session_stopped])
  else (s, []).

(** The callback given to [setTimeout] (lines 737-744). *)
Definition on_timeout (s : session) : session * list action :=
  if openaiWs s then
    (set_openaiWs false
       (set_responseInProgress false (set_isSessionActive false s)),
     [openai_close])
  else (s, []).

(** [ws.on("message")] (lines 472-497). *)
Definition on_message (message : ws_data) (s : session)
    : session * list action :=
  match message with
  | ws_unparseable msg =>
      (s, [console_error "Error processing message:"; ws_send (error msg)])
  | ws_json type sessionId audio =>
      (s, [console_log "Server: Received message type: ${data.type}"
             [JStr type]])
        >> (fun s =>
              if (type =? "init")%string then
                (s, [console_log "Processing init message" []])
                  >> initializeOpenAISession
              else if (type =? "audio")%string then
                (s, [console_log "Server: Audio message - openaiWs: ${!!openaiWs}, isSessionActive: ${isSessionActive}"
                       [JBool (openaiWs s); JBool (isSessionActive s)];
                     console_log "Server: Received audio data, length: ${data.audio ? data.audio.length : 'undefined'} bytes"
                       [match audio with
                        | Some a => JNum (len a)
                        | None => JStr "undefined"
                        end]])
                  >> (fun s =>
                        if openaiWs s && isSessionActive s
                        then streamAudioToOpenAI audio s
                        else (s, [console_log "Audio message received but session not ready" []]))
              else if (type =? "stop")%string then stopSession s
              else (s, [console_log "Unknown message type: ${data.type}"
                          [JStr type]]))
  end.

(** [ws.on("close")] (lines 499-505). *)
Definition on_close (s : session) : session * list action :=
  (s, [console_log "WebSocket connection closed" []])
    >> (fun s1 => if openaiWs s1 then stopSession s1 else (s1, []))
    >> (fun s1 => (s1, [connections_delete])).

(** One callback of the connection. *)
Definition step (s : session) (e : event) : session * list action :=
  match e with
  | ws_message _ message => on_message message s
  | ws_close => on_close s
  | openai_open sessionId => on_open sessionId s
  | openai_message_event data => on_openai_message data s
  | openai_closed => on_openai_close s
  | openai_failed => on_openai_error s
  | timeout => on_timeout s
  end.

Fixpoint run (s : session) (es : list event) : session * list action :=
  match es with
  | [] => (s, [])
  | e :: es' => step s e >> (fun s1 => run s1 es')
  end.

End VadServer.

(** ** The WebSocket server: one closure per connection, one registry

    [wss.on("connection")] creates the variables of a connection; the
    callbacks of a connection see its own variables and the module-level
    [connections] map, which they only change through [connections.set]
    and [connections.delete] with their own [ws] as key. *)

Section Wss.

Context {session : Type}.
Variable initial : session.
Variable step : session -> event -> session * list action.

Record server := {
  sessions : gmap nat session;
  connections : gmap nat (option string)
}.

Definition no_connection : server :=
  {| sessions := ∅; connections := ∅ |}.

(** What happens at the server: a client connects, or a callback of the
    connection [ws] runs. *)
Inductive wss_event :=
| connection (ws : nat)
| on (ws : nat) (e : event).

(** The registry after the effects of a callback of [ws]. *)
Fixpoint update_connections (ws : nat) (out : list action)
    (m : gmap nat (option string)) : gmap nat (option string) :=
  match out with
  | [] => m
  | connections_set sessionId :: out' =>
      update_connections ws out' (<[ws := sessionId]> m)
  | connections_delete :: out' =>
      update_connections ws out' (delete ws m)
  | _ :: out' => update_connections ws out' m
  end.

(** One event at the server; the effects are tagged with the connection
    whose callback performed them. *)
Definition wss_step (σ : server) (e : wss_event)
    : server * list (nat * action) :=
  match e with
  | connection ws =>
      ({| sessions := <[ws := initial]> (sessions σ);
          connections := connections σ |},
       [(ws, console_log "New WebSocket connection established" [])])
  | on ws e =>
      match sessions σ !! ws with
      | Some s =>
          let r := step s e in
          ({| sessions := <[ws := fst r]> (sessions σ);
              connections := update_connections ws (snd r) (connections σ) |},
           map (pair ws) (snd r))
      | None => (σ, [])
      end
  end.

End Wss.

Arguments server : clear implicits.

(** ** Vocabulary of the properties *)

(** A sequence of audio chunks as the client sends them, each with the
    clock reading at its arrival. *)
Definition audio_calls (calls : list (Z * bytes)) : list event :=
  map (fun c => ws_message (fst c) (ws_json "audio" None (Some (snd c)))) calls.

(** The counter is not negative and the buffer is shorter than a chunk. *)
Definition well_formed (s : ServerJs.session) : Prop :=
  0 <= ServerJs.totalAudioSent s /\
  len (ServerJs.audioBuffer s) < CHUNK_BYTES.

(** A client opens a session and the remote peer accepts it. *)
Definition session_start : list event :=
  [ws_message 0 (ws_json "init" (Some "s1") None); openai_open (Some "s1")].

(** A response is announced and three audio deltas carrying [A], [B] and
    [C] follow.  The bytes are put in both fields that a relay may read. *)
Definition created_and_deltas (A B C : bytes) : list event :=
  [openai_message_event response_created;
   openai_message_event (response_audio_delta (Some A) (Some A));
   openai_message_event (response_audio_delta (Some B) (Some B));
   openai_message_event (response_audio_delta (Some C) (Some C))].

(** The [translated_audio] messages among the effects. *)
Definition translated_audio_sent (out : list action) : list client_message :=
  List.filter is_translated_audio (sent_to_client out).

(** The relay property as the specification words it, for a relay given
    by its [run] and its flag: nothing is forwarded before the response is
    done, one clip [A ++ B ++ C] is forwarded when it is done, and the
    flag is down afterwards. *)
Definition one_clip_when_done {S : Type}
    (run : S -> list event -> S * list action)
    (responseInProgress : S -> bool) (s : S) (A B C : bytes) : Prop :=
  let before := run s (created_and_deltas A B C) in
  let done := run (fst before) [openai_message_event response_done] in
  translated_audio_sent (snd before) = [] /\
  translated_audio_sent (snd done) = [translated_audio (Some (A ++ B ++ C))] /\
  responseInProgress (fst done) = false.

(** An effect that reports a failure: a [console.error] line or an
    [error] message to the client. *)
Definition reports_failure (a : action) : bool :=
  match a with
  | console_error _ => true
  | ws_send (error _) => true
  | _ => false
  end.

(** The scenario of the specification for a second [response.created]
    while a response is in progress, in the state [s]: the event leaves the
    session as it is and the refusal is reported. *)
Definition second_created_rejected {S : Type}
    (step : S -> event -> S * list action) (s : S) : Prop :=
  let r := step s (openai_message_event response_created) in
  fst r = s /\ existsb reports_failure (snd r) = true.

(** A client message that does not parse, or whose type is none of the
    three that the handler knows. *)
Definition malformed_or_unknown (m : ws_data) : Prop :=
  match m with
  | ws_unparseable _ => True
  | ws_json type _ _ => type <> "init" /\ type <> "audio" /\ type <> "stop"
  end.

(** The server after the client 1 has connected. *)
Definition one_client {session : Type} (initial : session) : server session :=
  {| sessions := {[ 1%nat := initial ]}; connections := ∅ |}.

(** What the callbacks sent to clients, with the connection of each. *)
Definition sent_to_clients (out : list (nat * action))
    : list (nat * client_message) :=
  omap (fun ka => match snd ka with
                  | ws_send m => Some (fst ka, m)
                  | _ => None
                  end) out.

(** What a run of the chunk loop of server.js leaves and sends, from the
    session [s] to the result [r]: the flags and the commit time are not
    touched; only appends go out, each with one whole chunk; audio sent and
    audio kept make up the buffer; the counter grows by what was sent;
    less than a chunk is kept. *)
Record chunks_sent (s : ServerJs.session)
    (r : ServerJs.session * list action) : Prop := {
  cs_openaiWs : ServerJs.openaiWs (fst r) = ServerJs.openaiWs s;
  cs_active : ServerJs.isSessionActive (fst r) = ServerJs.isSessionActive s;
  cs_response :
    ServerJs.responseInProgress (fst r) = ServerJs.responseInProgress s;
  cs_time : ServerJs.lastCommitTime (fst r) = ServerJs.lastCommitTime s;
  cs_whole :
    Forall (fun m => exists chunk,
              m = input_audio_buffer_append chunk /\ len chunk = CHUNK_BYTES)
           (sent_to_openai (snd r));
  cs_audio :
    appended_audio (sent_to_openai (snd r)) ++ ServerJs.audioBuffer (fst r)
    = ServerJs.audioBuffer s;
  cs_counter :
    ServerJs.totalAudioSent (fst r)
    = ServerJs.totalAudioSent s
      + len (appended_audio (sent_to_openai (snd r)));
  cs_rest : len (ServerJs.audioBuffer (fst r)) < CHUNK_BYTES
}.

(** A session of server.js that was opened and has then received the
    given audio chunks. *)
Definition streaming (calls : list (Z * bytes)) : ServerJs.session :=
  fst (ServerJs.run ServerJs.initial (session_start ++ audio_calls calls)).

(** ** The client: playback of translated audio

    [playNextAudio] of the React component (part_000, lines 146-196;
    part_001, lines 173-234) turns the bytes of a [translated_audio]
    message into the samples of an audio buffer.  The quotients by 32768
    are exact in binary floating point (the numerators are integers below
    2^16 in absolute value), so they are written as rationals. *)

Module LiveTranslator.

(** An element of a [Uint8Array]. *)
Definition element (b : Byte.byte) : Z := Z.of_N (Byte.to_N b).

(** [pcmData[i] | (pcmData[i + 1] << 8)] *)
Definition sample (lo hi : Byte.byte) : Z :=
  Z.lor (element lo) (Z.shiftl (element hi) 8).

(** [sample < 32768 ? sample / 32768 : (sample - 65536) / 32768] *)
Definition channel_value (sample : Z) : Q :=
  if sample <? 32768 then sample # 32768 else (sample - 65536) # 32768.

(** [Math.floor(pcmData.length / 2)] *)
Definition numSamples (pcmData : bytes) : Z := len pcmData / 2.

(** The loop [for (let i = 0; i < pcmData.length - 1; i += 2)]: the
    entries of [channelData] that it writes, in order. *)
Fixpoint channelData (pcmData : bytes) : list Q :=
  match pcmData with
  | lo :: hi :: rest => channel_value (sample lo hi) :: channelData rest
  | _ => []
  end.

(** The samples that [playNextAudio] hands to the audio source, or [None]
    when it gives up on a clip of fewer than 2 bytes. *)
Definition playNextAudio (pcmData : bytes) : option (list Q) :=
  if len pcmData <? 2 then None
  else if numSamples pcmData =? 0 then None
  else Some (channelData pcmData).

End LiveTranslator.

(** ** Vocabulary of the further properties *)

(** A session of server.js is open when it holds a socket whenever it is
    active. *)
Definition active_has_socket (s : ServerJs.session) : bool :=
  implb (ServerJs.isSessionActive s) (ServerJs.openaiWs s).

(** What the auto-commit block of server.js sends after the chunk loop,
    for a remainder [rest]: nothing, or the remainder, the commit and,
    unless a response is in progress, the request of a response. *)
Definition scheduled (now : Z) (s : ServerJs.session) (rest : bytes)
    : list openai_message :=
  if (MIN_BUFFER_SIZE <=? len rest) && (2000 <? now - ServerJs.lastCommitTime s)
  then [input_audio_buffer_append rest; input_audio_buffer_commit]
       ++ (if ServerJs.responseInProgress s then [] else [response_create])
  else [].

(** A client message of type [audio] and one of type [stop]. *)
Definition audio_message (now : Z) (audio : option bytes) : event :=
  ws_message now (ws_json "audio" None audio).

Definition stop_message (now : Z) : event :=
  ws_message now (ws_json "stop" None None).

(** Remote audio deltas and transcript deltas, as the events of part_001
    carry them. *)
Definition audio_deltas (ds : list (option bytes)) : list event :=
  map (fun d => openai_message_event (response_audio_delta None d)) ds.

Definition text_deltas (ds : list (option string)) : list event :=
  map (fun d => openai_message_event (response_audio_transcript_delta d)) ds.

(** The payloads that are present, in order. *)
Definition present {A : Type} (ds : list (option A)) : list A :=
  omap (fun d => d) ds.

(** The texts joined. *)
Definition joined (ts : list string) : string :=
  fold_right String.append EmptyString ts.

(** The [translation] texts among messages to the client. *)
Definition translations (ms : list client_message) : list (option string) :=
  omap (fun m => match m with translation t => Some t | _ => None end) ms.

(** * Properties *)

(** ** Traces *)

(** Case analysis on the condition of the first conditional of the goal. *)
Ltac case_if :=
  match goal with
  | |- context [if ?b then _ else _] => destruct b eqn:?
  end.

Lemma and_then_fst {S : Type} (r : S * list action) k :
  fst (r >> k) = fst (k (fst r)).
Proof. reflexivity. Qed.

Lemma and_then_snd {S : Type} (r : S * list action) k :
  snd (r >> k) = snd r ++ snd (k (fst r)).
Proof. reflexivity. Qed.

Lemma sent_to_openai_app out1 out2 :
  sent_to_openai (out1 ++ out2) = sent_to_openai out1 ++ sent_to_openai out2.
Proof. apply omap_app. Qed.

Lemma appended_audio_app ms1 ms2 :
  appended_audio (ms1 ++ ms2) = appended_audio ms1 ++ appended_audio ms2.
Proof. unfold appended_audio. now rewrite omap_app, concat_app. Qed.

Lemma len_app (a b : bytes) : len (a ++ b) = len a + len b.
Proof. unfold len. rewrite length_app. lia. Qed.

Lemma len_nonneg (a : bytes) : 0 <= len a.
Proof. unfold len. lia. Qed.

Lemma CHUNK_BYTES_eq : CHUNK_BYTES = 24000.
Proof. reflexivity. Qed.

Lemma MIN_BUFFER_SIZE_eq : MIN_BUFFER_SIZE = 9600.
Proof. reflexivity. Qed.

Lemma minRequiredBytes_eq : minRequiredBytes = 4800.
Proof. reflexivity. Qed.

(** ** The frame buffer of server.js *)

Section FrameBuffer.

Import ServerJs.

(** The loop, unfolded once. *)
Lemma send_chunks_once s :
  send_chunks s =
  if Z_le_gt_dec CHUNK_BYTES (len (audioBuffer s))
  then send_chunk s >> send_chunks
  else (s, []).
Proof.
  rewrite send_chunks_equation_1. unfold send_chunks_unfold_clause_1.
  destruct (Z_le_gt_dec _ _); reflexivity.
Qed.

Lemma send_chunks_spec s : chunks_sent s (send_chunks s).
Proof.
  remember (length (audioBuffer s)) as n eqn:Hn.
  revert s Hn. induction n as [n IH] using lt_wf_ind. intros s Hn.
  rewrite send_chunks_once.
  destruct (Z_le_gt_dec CHUNK_BYTES (len (audioBuffer s))) as [Hge | Hlt].
  - assert (Hdrop : (length (drop (Z.to_nat CHUNK_BYTES) (audioBuffer s)) < n)%nat).
    { rewrite length_drop. unfold len in Hge. rewrite CHUNK_BYTES_eq in *. lia. }
    destruct (IH _ Hdrop (fst (send_chunk s)) eq_refl)
      as [H1 H2 H3 H4 H5 H6 H7 H8].
    assert (Htake : len (take (Z.to_nat CHUNK_BYTES) (audioBuffer s)) = CHUNK_BYTES).
    { unfold len in *. rewrite length_take. rewrite CHUNK_BYTES_eq in *. lia. }
    split; rewrite ?and_then_fst, ?and_then_snd; cbn [fst snd send_chunk] in *;
      try assumption.
    + rewrite sent_to_openai_app. apply Forall_app. split; [|assumption].
      cbn. constructor; [|constructor]. eexists. split; [reflexivity|exact Htake].
    + rewrite sent_to_openai_app, appended_audio_app, <- app_assoc, H6.
      cbn. rewrite app_nil_r. apply take_drop.
    + rewrite H7, sent_to_openai_app, appended_audio_app, len_app. cbn.
      rewrite app_nil_r, Htake. lia.
  - split; cbn; try reflexivity; try constructor; try lia.
    change (len []) with 0. lia.
Qed.

(** ** Audio calls *)

(** The scheduler's flush and commit keep every byte: what it sends and
    what it keeps is what it found. *)
Lemma auto_commit_audio now s :
  appended_audio (sent_to_openai (snd (auto_commit now s)))
    ++ audioBuffer (fst (auto_commit now s))
  = audioBuffer s.
Proof.
  unfold auto_commit.
  destruct (_ && _); [|reflexivity].
  unfold send_remaining.
  destruct (0 <? len (audioBuffer s)) eqn:Hpos.
  - unfold commit_if_enough, create_response.
    rewrite !and_then_snd, !and_then_fst. cbn [fst snd].
    repeat (match goal with |- context [if ?b then _ else _] => destruct b end;
            cbn; rewrite ?app_nil_r; try reflexivity).
  - apply Z.ltb_ge in Hpos. pose proof (len_nonneg (audioBuffer s)).
    assert (Hnil : audioBuffer s = []).
    { destruct (audioBuffer s); [reflexivity|]. unfold len in *. cbn in *. lia. }
    unfold commit_if_enough, create_response.
    rewrite !and_then_snd, !and_then_fst. cbn [fst snd].
    repeat (match goal with |- context [if ?b then _ else _] => destruct b end;
            cbn; rewrite ?Hnil; try reflexivity).
Qed.

Lemma auto_commit_ready now s :
  openaiWs (fst (auto_commit now s)) = openaiWs s /\
  isSessionActive (fst (auto_commit now s)) = isSessionActive s.
Proof.
  unfold auto_commit, send_remaining, commit_if_enough, create_response.
  repeat (match goal with |- context [if ?b then _ else _] => destruct b end;
          cbn; try (split; reflexivity)).
Qed.

Lemma auto_commit_rest now s :
  len (audioBuffer s) < CHUNK_BYTES ->
  len (audioBuffer (fst (auto_commit now s))) < CHUNK_BYTES.
Proof.
  intros H.
  unfold auto_commit, send_remaining, commit_if_enough, create_response.
  repeat (match goal with |- context [if ?b then _ else _] => destruct b end;
          cbn; try assumption; try reflexivity).
Qed.

(** One audio call on a ready session: every byte of the buffer and of the
    new data is sent or kept, in order, and less than a chunk is kept. *)
Lemma streamAudioToOpenAI_audio now newData s :
  ready s ->
  let r := streamAudioToOpenAI now (Some newData) s in
  appended_audio (sent_to_openai (snd r)) ++ audioBuffer (fst r)
    = audioBuffer s ++ newData
  /\ len (audioBuffer (fst r)) < CHUNK_BYTES
  /\ ready (fst r).
Proof.
  intros [Hws Hact]. unfold streamAudioToOpenAI. rewrite Hws, Hact. cbn [negb orb].
  set (s1 := set_audioBuffer (audioBuffer s ++ newData) s).
  destruct (send_chunks_spec s1) as [H1 H2 H3 H4 H5 H6 H7 H8].
  cbn zeta. rewrite !and_then_snd, !and_then_fst. cbn [fst snd].
  rewrite app_nil_l || idtac.
  split; [|split].
  - rewrite !sent_to_openai_app, !appended_audio_app. cbn [sent_to_openai omap].
    change (appended_audio (sent_to_openai [console_log _ _])) with (@nil Byte.byte).
    rewrite app_nil_l, <- app_assoc, auto_commit_audio. exact H6.
  - apply auto_commit_rest. exact H8.
  - destruct (auto_commit_ready now (fst (send_chunks s1))) as [Ha Hb].
    split; [rewrite Ha, H1 | rewrite Hb, H2]; assumption.
Qed.

End FrameBuffer.

Section AudioCalls.

Import ServerJs.

Lemma on_message_audio_ready now sessionId audio s :
  ready s ->
  on_message now (ws_json "audio" sessionId audio) s
  = streamAudioToOpenAI now audio s.
Proof. intros [Hws Hact]. cbn. now rewrite Hws, Hact. Qed.

(** C1.  Frame buffer, byte conservation: over any sequence of audio
    chunks handed to a ready session, the audio of all the appends sent to
    the remote peer, in the order sent, followed by the buffer that is
    left, is the buffer at the start followed by all the chunks in the
    order received.  From an empty buffer this is the concatenation of the
    inputs: no byte is lost, repeated or moved. *)
Theorem frames_then_remainder_is_input (calls : list (Z * bytes)) (s : session) :
  ready s ->
  let r := run s (audio_calls calls) in
  appended_audio (sent_to_openai (snd r)) ++ audioBuffer (fst r)
  = audioBuffer s ++ concat (map snd calls).
Proof.
  revert s. induction calls as [|[now newData] calls IH]; intros s Hready.
  - cbn. now rewrite app_nil_r.
  - cbn [audio_calls map run step fst snd].
    rewrite (on_message_audio_ready _ _ _ _ Hready).
    destruct (streamAudioToOpenAI_audio now newData s Hready) as (Haudio & _ & Hready').
    cbn zeta in *. rewrite and_then_fst, and_then_snd.
    rewrite sent_to_openai_app, appended_audio_app, <- app_assoc.
    specialize (IH _ Hready'). cbn zeta in IH. fold (audio_calls calls).
    rewrite IH, app_assoc, Haudio, <- app_assoc. reflexivity.
Qed.

Lemma frames_then_remainder_is_input_witness :
  ready (streaming []) /\
  appended_audio
    (sent_to_openai
       (snd (run (streaming [])
               (audio_calls [(5000, [Byte.x01; Byte.x02]); (9000, [Byte.x03])]))))
    ++ audioBuffer
         (fst (run (streaming [])
                 (audio_calls [(5000, [Byte.x01; Byte.x02]); (9000, [Byte.x03])])))
  = audioBuffer (streaming [])
      ++ concat (map snd [(5000, [Byte.x01; Byte.x02]); (9000, [Byte.x03])]).
Proof.
  assert (H : ready (streaming [])) by (split; reflexivity).
  split; [exact H|].
  exact (frames_then_remainder_is_input
           [(5000, [Byte.x01; Byte.x02]); (9000, [Byte.x03])] (streaming []) H).
Defined.

(** C8.  After an audio chunk has been processed by a ready session, the
    buffer holds less than one chunk of [CHUNK_BYTES] = 24000 bytes,
    whatever it held before and however long the chunk: all that exceeds
    it went out in the same call, and what went out and what is kept is
    what was there.  The loop that slices the buffer sends whole chunks of
    24000 bytes only, and leaves less than one. *)
Theorem buffer_below_one_chunk (now : Z) (newData : bytes) (s : session) :
  ready s ->
  let r := streamAudioToOpenAI now (Some newData) s in
  let sliced := send_chunks (set_audioBuffer (audioBuffer s ++ newData) s) in
  len (audioBuffer (fst r)) < 24000 /\
  appended_audio (sent_to_openai (snd r)) ++ audioBuffer (fst r)
  = audioBuffer s ++ newData /\
  Forall (fun m => exists chunk,
            m = input_audio_buffer_append chunk /\ len chunk = 24000)
         (sent_to_openai (snd sliced)) /\
  len (audioBuffer (fst sliced)) < 24000.
Proof.
  intros Hready.
  destruct (streamAudioToOpenAI_audio now newData s Hready) as (Haudio & Hrest & _).
  destruct (send_chunks_spec (set_audioBuffer (audioBuffer s ++ newData) s))
    as [_ _ _ _ Hwhole _ _ Hlt].
  repeat split; assumption.
Qed.

Lemma buffer_below_one_chunk_witness :
  ready (streaming []) /\
  len (audioBuffer
         (fst (streamAudioToOpenAI 100 (Some [Byte.x07; Byte.x08])
                 (streaming [])))) < 24000.
Proof.
  assert (H : ready (streaming [])) by (split; reflexivity).
  split; [exact H|].
  exact (proj1 (buffer_below_one_chunk 100 [Byte.x07; Byte.x08] (streaming []) H)).
Defined.

(** A chunk of 50000 bytes into an empty buffer: two frames go out and 2000
    bytes stay. *)
Example two_frames_of_50000 :
  let r := streamAudioToOpenAI 0 (Some (repeat Byte.x07 50000)) (streaming []) in
  map (fun m => match m with
                | input_audio_buffer_append a => len a
                | _ => -1
                end) (sent_to_openai (snd r)) = [24000; 24000]
  /\ len (audioBuffer (fst r)) = 2000.
Proof. vm_compute. split; reflexivity. Qed.

(** The scenario of the specification: five chunks of 5000 bytes give one
    frame of 24000 bytes and leave 1000 bytes. *)
Example five_chunks_of_5000 :
  let r := run (streaming []) (audio_calls (repeat (0, repeat Byte.x00 5000) 5)) in
  map (fun m => match m with
                | input_audio_buffer_append a => len a
                | _ => -1
                end) (sent_to_openai (snd r)) = [24000]
  /\ len (audioBuffer (fst r)) = 1000.
Proof. vm_compute. split; reflexivity. Qed.

End AudioCalls.

(** ** The commit scheduler of server.js *)

Section CommitScheduler.

Import ServerJs.

(** The block is left alone with less than [MIN_BUFFER_SIZE] bytes. *)
Lemma auto_commit_idle now s :
  len (audioBuffer s) < MIN_BUFFER_SIZE -> auto_commit now s = (s, []).
Proof.
  intros Hsmall. unfold auto_commit.
  apply Z.leb_gt in Hsmall. now rewrite Hsmall.
Qed.

(** C3.  A scheduler state whose timer has run out (more than 2000 ms
    since the last commit) but whose counter, the remainder included,
    stays below the floor of 4800 bytes: the scheduler does nothing.  No
    append, no commit and no response request is sent, nothing is logged,
    and counter, buffer, commit time and flags stay as they are. *)
Theorem no_action_below_floor (now : Z) (s : session) :
  0 <= totalAudioSent s ->
  2000 < now - lastCommitTime s ->
  totalAudioSent s + len (audioBuffer s) < 4800 ->
  auto_commit now s = (s, []).
Proof.
  intros Hsent _ Hlow. apply auto_commit_idle.
  rewrite MIN_BUFFER_SIZE_eq. lia.
Qed.

Lemma no_action_below_floor_witness :
  (0 <= totalAudioSent (streaming [(0, repeat Byte.x00 1000)])
   /\ 2000 < 5000 - lastCommitTime (streaming [(0, repeat Byte.x00 1000)])
   /\ totalAudioSent (streaming [(0, repeat Byte.x00 1000)])
      + len (audioBuffer (streaming [(0, repeat Byte.x00 1000)])) < 4800)
  /\ auto_commit 5000 (streaming [(0, repeat Byte.x00 1000)])
     = (streaming [(0, repeat Byte.x00 1000)], []).
Proof.
  assert (H1 : 0 <= totalAudioSent (streaming [(0, repeat Byte.x00 1000)]))
    by (vm_compute; congruence).
  assert (H2 : 2000 < 5000 - lastCommitTime (streaming [(0, repeat Byte.x00 1000)]))
    by (vm_compute; reflexivity).
  assert (H3 : totalAudioSent (streaming [(0, repeat Byte.x00 1000)])
               + len (audioBuffer (streaming [(0, repeat Byte.x00 1000)])) < 4800)
    by (vm_compute; reflexivity).
  split; [repeat split; assumption|].
  exact (no_action_below_floor 5000 (streaming [(0, repeat Byte.x00 1000)]) H1 H2 H3).
Defined.

(** The branch of the block that skips the commit is never taken: the
    block is entered with at least [MIN_BUFFER_SIZE] = 9600 bytes in the
    buffer, which the flush adds to the counter. *)
Lemma auto_commit_entered_commits now s :
  0 <= totalAudioSent s ->
  MIN_BUFFER_SIZE <= len (audioBuffer s) ->
  2000 < now - lastCommitTime s ->
  In input_audio_buffer_commit (sent_to_openai (snd (auto_commit now s)))
  /\ totalAudioSent (fst (auto_commit now s)) = 0.
Proof.
  intros Hsent Hbuf Hlate. unfold auto_commit.
  rewrite MIN_BUFFER_SIZE_eq in Hbuf.
  replace (MIN_BUFFER_SIZE <=? len (audioBuffer s)) with true
    by (symmetry; apply Z.leb_le; rewrite MIN_BUFFER_SIZE_eq; lia).
  replace (2000 <? now - lastCommitTime s) with true
    by (symmetry; apply Z.ltb_lt; lia).
  cbn [andb]. unfold send_remaining.
  replace (0 <? len (audioBuffer s)) with true
    by (symmetry; apply Z.ltb_lt; lia).
  unfold commit_if_enough, and_then.
  cbn [fst snd totalAudioSent set_audioBuffer set_totalAudioSent].
  replace (minRequiredBytes <=? totalAudioSent s + len (audioBuffer s)) with true
    by (symmetry; apply Z.leb_le; rewrite minRequiredBytes_eq; lia).
  unfold create_response. split.
  - destruct (responseInProgress _); cbn; tauto.
  - destruct (responseInProgress _); reflexivity.
Qed.

(** The same for a whole audio call: the chunk is buffered and that is
    all. *)
Lemma audio_call_below_floor now newData s :
  ready s ->
  0 <= totalAudioSent s ->
  2000 < now - lastCommitTime s ->
  totalAudioSent s + len (audioBuffer s ++ newData) < 4800 ->
  let r := streamAudioToOpenAI now (Some newData) s in
  fst r = set_audioBuffer (audioBuffer s ++ newData) s /\
  sent_to_openai (snd r) = [].
Proof.
  intros [Hws Hact] Hsent Hlate Hlow. unfold streamAudioToOpenAI.
  rewrite Hws, Hact. cbn [negb orb]. cbn zeta.
  set (s1 := set_audioBuffer (audioBuffer s ++ newData) s).
  assert (Hloop : send_chunks s1 = (s1, [])).
  { rewrite send_chunks_once.
    destruct (Z_le_gt_dec _ _) as [Hge|]; [|reflexivity].
    cbn in Hge. pose proof (len_nonneg (audioBuffer s)).
    rewrite CHUNK_BYTES_eq in Hge. subst s1. cbn in Hlow. lia. }
  unfold and_then. cbn [fst snd]. fold s1.
  rewrite Hloop. cbn [fst snd].
  rewrite (auto_commit_idle now s1); [split; reflexivity|].
  rewrite MIN_BUFFER_SIZE_eq. subst s1. cbn in *. lia.
Qed.

(** The loop sends appends only. *)
Lemma send_chunks_only_appends s m :
  In m (sent_to_openai (snd (send_chunks s))) ->
  exists chunk, m = input_audio_buffer_append chunk.
Proof.
  intros Hin. destruct (send_chunks_spec s) as [_ _ _ _ Hwhole _ _ _].
  destruct (proj1 (List.Forall_forall _ _) Hwhole m Hin) as (chunk & -> & _).
  now exists chunk.
Qed.

(** The scheduler asks for a response only when none is in progress. *)
Lemma auto_commit_no_response_create now s :
  responseInProgress s = true ->
  ~ In response_create (sent_to_openai (snd (auto_commit now s))).
Proof.
  intros Hrip. unfold auto_commit, send_remaining, commit_if_enough, create_response.
  repeat (case_if; cbn [fst snd and_then app responseInProgress
                        set_audioBuffer set_totalAudioSent set_lastCommitTime] in *;
          try rewrite Hrip in *; try discriminate);
    cbn; intuition discriminate.
Qed.

Lemma stopSession_no_response_create s :
  ~ In response_create (sent_to_openai (snd (stopSession s))).
Proof.
  unfold stopSession.
  repeat (case_if; cbn [fst snd and_then app] in *); cbn; intuition discriminate.
Qed.

(** C4.  Whatever the state of a session (so in every state a run can
    reach) and whatever callback runs in it (an audio chunk, a stop, a
    remote event, a close, the timer), no [response.create] goes to the
    remote peer when [responseInProgress] is true. *)
Theorem no_response_create_in_progress (s : session) (e : event) :
  responseInProgress s = true ->
  ~ In response_create (sent_to_openai (snd (step s e))).
Proof.
  intros Hrip. destruct e as [now [msg | type sid audio] | | sid | data | | | ]; cbn [step].
  - cbn. intuition discriminate.
  - unfold on_message.
    destruct (type =? "init")%string; [cbn; intuition discriminate|].
    destruct ((type =? "audio")%string && openaiWs s && isSessionActive s) eqn:Hdisp.
    + unfold streamAudioToOpenAI.
      destruct (negb (openaiWs s) || negb (isSessionActive s)); [cbn; tauto|].
      destruct audio as [newData|]; [|cbn; intuition discriminate].
      cbn zeta. rewrite !and_then_snd, !and_then_fst, !sent_to_openai_app.
      cbn [fst snd]. intros Hin. apply in_app_or in Hin as [Hin | Hin].
      * apply in_app_or in Hin as [Hin | Hin]; [cbn in Hin; tauto|].
        apply send_chunks_only_appends in Hin as (chunk & Heq). discriminate.
      * revert Hin. apply auto_commit_no_response_create.
        destruct (send_chunks_spec
                    (set_audioBuffer (audioBuffer s ++ newData) s))
          as [_ _ Hsame _ _ _ _ _].
        rewrite Hsame. exact Hrip.
    + destruct (type =? "stop")%string; [apply stopSession_no_response_create|].
      cbn; tauto.
  - unfold on_close. rewrite !and_then_snd, !and_then_fst, !sent_to_openai_app.
    cbn [fst snd]. intros Hin.
    apply in_app_or in Hin as [Hin | Hin]; [|cbn in Hin; tauto].
    apply in_app_or in Hin as [Hin | Hin]; [cbn in Hin; tauto|].
    destruct (openaiWs s); [|cbn in Hin; tauto].
    revert Hin. apply stopSession_no_response_create.
  - unfold on_open. destruct (openaiWs s); cbn; intuition discriminate.
  - destruct data as [| | | | | | | | | | | | [m|] | ]; cbn; intuition discriminate.
  - cbn; tauto.
  - cbn; intuition discriminate.
  - unfold on_timeout. destruct (openaiWs s); cbn; tauto.
Qed.

Lemma no_response_create_in_progress_witness :
  responseInProgress (fst (step (streaming [(0, repeat Byte.x00 9000)])
                             (openai_message_event response_created))) = true
  /\ ~ In response_create
         (sent_to_openai
            (snd (step (fst (step (streaming [(0, repeat Byte.x00 9000)])
                               (openai_message_event response_created)))
                       (ws_message 5000
                          (ws_json "audio" None (Some (repeat Byte.x00 1000))))))).
Proof.
  assert (H : responseInProgress
                (fst (step (streaming [(0, repeat Byte.x00 9000)])
                        (openai_message_event response_created))) = true)
    by reflexivity.
  split; [exact H|].
  exact (no_response_create_in_progress _
           (ws_message 5000 (ws_json "audio" None (Some (repeat Byte.x00 1000)))) H).
Defined.

(** The scheduler at work in that state and in the same state with no
    response in progress: the request is the only difference. *)
Example response_create_only_when_idle :
  let s := streaming [(0, repeat Byte.x00 9000)] in
  let e := ws_message 5000 (ws_json "audio" None (Some (repeat Byte.x00 1000))) in
  sent_to_openai
    (snd (step (fst (step s (openai_message_event response_created))) e))
  = [input_audio_buffer_append (repeat Byte.x00 10000);
     input_audio_buffer_commit]
  /\ sent_to_openai (snd (step s e))
     = [input_audio_buffer_append (repeat Byte.x00 10000);
        input_audio_buffer_commit; response_create].
Proof. vm_compute. split; reflexivity. Qed.

End CommitScheduler.

Section Counter.

Import ServerJs.

(** The counter is never negative and the buffer never reaches a chunk,
    in any state a connection can be in. *)
Lemma auto_commit_counter now s :
  0 <= totalAudioSent s -> 0 <= totalAudioSent (fst (auto_commit now s)).
Proof.
  intros H. pose proof (len_nonneg (audioBuffer s)).
  unfold auto_commit, send_remaining, commit_if_enough, create_response.
  repeat (case_if; cbn [fst snd and_then totalAudioSent set_audioBuffer
                        set_totalAudioSent set_lastCommitTime
                        set_responseInProgress] in *); lia.
Qed.

Lemma stopSession_well_formed s :
  well_formed s -> well_formed (fst (stopSession s)).
Proof.
  intros [Hsent Hrest]. pose proof (len_nonneg (audioBuffer s)).
  unfold stopSession.
  destruct (openaiWs s && isSessionActive s); [|split; assumption].
  rewrite !and_then_fst. cbn [fst].
  destruct (0 <? len (audioBuffer s)); split; cbn; try assumption; lia.
Qed.

Lemma step_well_formed s e :
  well_formed s -> well_formed (fst (step s e)).
Proof.
  intros [Hsent Hrest].
  destruct e as [now [msg | type sid audio] | | sid | data | | | ]; cbn [step].
  - split; assumption.
  - unfold on_message.
    destruct (type =? "init")%string; [split; assumption|].
    destruct ((type =? "audio")%string && openaiWs s && isSessionActive s) eqn:Hdisp.
    + unfold streamAudioToOpenAI.
      destruct (negb (openaiWs s) || negb (isSessionActive s)); [split; assumption|].
      destruct audio as [newData|]; [|split; assumption].
      cbn zeta. rewrite !and_then_fst. cbn [fst].
      destruct (send_chunks_spec (set_audioBuffer (audioBuffer s ++ newData) s))
        as [_ _ _ _ _ _ Hcount Hlt].
      split.
      * apply auto_commit_counter. rewrite Hcount. cbn.
        pose proof (len_nonneg (appended_audio (sent_to_openai
          (snd (send_chunks (set_audioBuffer (audioBuffer s ++ newData) s)))))).
        lia.
      * apply auto_commit_rest. exact Hlt.
    + destruct (type =? "stop")%string; [|split; assumption].
      apply stopSession_well_formed. split; assumption.
  - unfold on_close. rewrite !and_then_fst. cbn [fst].
    destruct (openaiWs s); [|split; assumption].
    apply stopSession_well_formed. split; assumption.
  - unfold on_open. destruct (openaiWs s); split; assumption.
  - destruct data as [| | | | | | | | | | | | [m|] | ]; split; assumption.
  - split; assumption.
  - split; assumption.
  - unfold on_timeout. destruct (openaiWs s); split; assumption.
Qed.

Lemma run_well_formed es : forall s,
  well_formed s -> well_formed (fst (run s es)).
Proof.
  induction es as [|e es IH]; intros s H; [exact H|].
  cbn [run]. rewrite and_then_fst. apply IH, step_well_formed, H.
Qed.

Lemma reachable_well_formed s : reachable s -> well_formed s.
Proof.
  intros [es <-]. apply run_well_formed. split; [reflexivity|].
  vm_compute. reflexivity.
Qed.

(** In an audio call the counter follows what is transmitted: it grows by
    the bytes of the appends, and it is zero after a commit. *)
Lemma audio_call_counter now newData s :
  ready s ->
  let r := streamAudioToOpenAI now (Some newData) s in
  if existsb is_commit (sent_to_openai (snd r))
  then totalAudioSent (fst r) = 0
  else totalAudioSent (fst r)
       = totalAudioSent s + len (appended_audio (sent_to_openai (snd r))).
Proof.
  intros [Hws Hact]. unfold streamAudioToOpenAI. rewrite Hws, Hact.
  cbn [negb orb]. cbn zeta.
  set (s1 := set_audioBuffer (audioBuffer s ++ newData) s).
  destruct (send_chunks_spec s1) as [_ _ _ _ Hwhole _ Hcount _].
  assert (Hnocommit : existsb is_commit (sent_to_openai (snd (send_chunks s1))) = false).
  { clear Hcount. induction Hwhole as [|m ms (chunk & -> & _) _ IH]; [reflexivity|exact IH]. }
  unfold and_then. cbn [fst snd]. fold s1.
  rewrite !sent_to_openai_app, !existsb_app, !appended_audio_app, !len_app.
  rewrite Hnocommit. cbn [sent_to_openai omap existsb orb].
  change (appended_audio (sent_to_openai [console_log _ _])) with (@nil Byte.byte).
  change (len []) with 0.
  change (totalAudioSent s1) with (totalAudioSent s) in Hcount.
  revert Hcount.
  generalize (len (appended_audio (sent_to_openai (snd (send_chunks s1))))).
  generalize (fst (send_chunks s1)). intros s2 n Hcount.
  unfold auto_commit, send_remaining, commit_if_enough, create_response.
  repeat (case_if; cbn [fst snd and_then totalAudioSent set_audioBuffer
                        set_totalAudioSent set_lastCommitTime
                        set_responseInProgress audioBuffer] in *);
    cbn; rewrite ?app_nil_r; change (len []) with 0; try lia; try discriminate.
Qed.

(** C5.  The stop path sends the final commit and leaves the counter as it
    is: a session that has buffered one chunk of 5000 bytes, nothing sent
    yet, receives a stop; it sends the 5000 bytes and a commit, and the
    counter is 5000, not 0, afterwards; the buffer is not emptied
    either. *)
Theorem stop_commit_keeps_counter :
  let s := streaming [(1000, repeat Byte.x00 5000)] in
  let r := step s (ws_message 2000 (ws_json "stop" None None)) in
  totalAudioSent s = 0 /\
  sent_to_openai (snd r)
  = [input_audio_buffer_append (repeat Byte.x00 5000);
     input_audio_buffer_commit]
  /\ totalAudioSent (fst r) = 5000
  /\ audioBuffer (fst r) = repeat Byte.x00 5000.
Proof. vm_compute. repeat split; reflexivity. Qed.

(** What the client of the repository does, a stop and then a close
    before the timer fires, sends the final audio and the commit twice. *)
Example stop_then_close_sends_twice :
  let s := streaming [(1000, repeat Byte.x00 5000)] in
  sent_to_openai
    (snd (run s [ws_message 2000 (ws_json "stop" None None); ws_close]))
  = [input_audio_buffer_append (repeat Byte.x00 5000);
     input_audio_buffer_commit;
     input_audio_buffer_append (repeat Byte.x00 5000);
     input_audio_buffer_commit].
Proof. vm_compute. reflexivity. Qed.

(** C6.  A stop on a ready session: the remainder is sent (all of it, and
    nothing else as audio), one commit follows exactly when the counter
    with the remainder reaches 4800 bytes, at most one commit is sent, no
    response is requested, and with a counter of 3000 there is no
    commit. *)
Theorem stop_flushes_and_commits_at_floor (s : session) :
  ready s ->
  let sent := sent_to_openai (snd (stopSession s)) in
  appended_audio sent = audioBuffer s
  /\ (In input_audio_buffer_commit sent
      <-> 4800 <= totalAudioSent s + len (audioBuffer s))
  /\ (length (List.filter is_commit sent) <= 1)%nat
  /\ ~ In response_create sent
  /\ (totalAudioSent s + len (audioBuffer s) = 3000
      -> ~ In input_audio_buffer_commit sent).
Proof.
  intros [Hws Hact]. cbn zeta.
  assert (Hiff : In input_audio_buffer_commit (sent_to_openai (snd (stopSession s)))
                 <-> 4800 <= totalAudioSent s + len (audioBuffer s)).
  { unfold stopSession. rewrite Hws, Hact. cbn [andb].
    pose proof (len_nonneg (audioBuffer s)).
    destruct (0 <? len (audioBuffer s)) eqn:Hpos;
      cbn [fst snd and_then app totalAudioSent set_totalAudioSent].
    - destruct (minRequiredBytes <=? _) eqn:Hmin; cbn;
        [apply Z.leb_le in Hmin | apply Z.leb_gt in Hmin];
        rewrite minRequiredBytes_eq in Hmin; intuition (try discriminate; try lia).
    - apply Z.ltb_ge in Hpos.
      destruct (minRequiredBytes <=? _) eqn:Hmin; cbn;
        [apply Z.leb_le in Hmin | apply Z.leb_gt in Hmin];
        rewrite minRequiredBytes_eq in Hmin; intuition (try discriminate; try lia). }
  split; [|split; [exact Hiff|split; [|split]]].
  - unfold stopSession. rewrite Hws, Hact. cbn [andb].
    destruct (0 <? len (audioBuffer s)) eqn:Hpos;
      cbn [fst snd and_then app totalAudioSent set_totalAudioSent].
    + destruct (minRequiredBytes <=? _); cbn; now rewrite app_nil_r.
    + apply Z.ltb_ge in Hpos.
      assert (Hnil : audioBuffer s = []).
      { destruct (audioBuffer s); [reflexivity|]. unfold len in Hpos. cbn in Hpos. lia. }
      destruct (minRequiredBytes <=? _); cbn; now rewrite Hnil.
  - unfold stopSession. rewrite Hws, Hact. cbn [andb].
    destruct (0 <? len (audioBuffer s));
      cbn [fst snd and_then app totalAudioSent set_totalAudioSent];
      destruct (minRequiredBytes <=? _); cbn; lia.
  - apply stopSession_no_response_create.
  - intros H3000 Hin. apply Hiff in Hin. lia.
Qed.

Lemma stop_flushes_and_commits_at_floor_witness :
  ready (streaming [(0, repeat Byte.x00 3000)]) /\
  appended_audio
    (sent_to_openai (snd (stopSession (streaming [(0, repeat Byte.x00 3000)]))))
  = audioBuffer (streaming [(0, repeat Byte.x00 3000)]).
Proof.
  assert (H : ready (streaming [(0, repeat Byte.x00 3000)]))
    by (split; reflexivity).
  split; [exact H|].
  exact (proj1 (stop_flushes_and_commits_at_floor _ H)).
Defined.

(** The scenario of the specification: a stop with 3000 bytes to commit
    sends the 3000 bytes and no commit. *)
Example stop_with_3000_bytes :
  sent_to_openai (snd (stopSession (streaming [(0, repeat Byte.x00 3000)])))
  = [input_audio_buffer_append (repeat Byte.x00 3000)].
Proof. vm_compute. reflexivity. Qed.

(** C10.  An audio message that arrives while [openaiWs] is [null] or the
    session is not active is dropped without a trace: the callback leaves
    every variable as it was (nothing buffered, no counter changed) and
    performs no effect at all, so nothing goes to the remote peer and no
    error goes to the client.  The same holds of a call of
    [streamAudioToOpenAI] in such a state. *)
Theorem audio_dropped_when_not_ready (now : Z) (sessionId : option string)
    (audio : option bytes) (s : session) :
  openaiWs s = false \/ isSessionActive s = false ->
  on_message now (ws_json "audio" sessionId audio) s = (s, [])
  /\ streamAudioToOpenAI now audio s = (s, []).
Proof.
  intros Hnot. unfold on_message, streamAudioToOpenAI. cbn.
  destruct Hnot as [-> | ->]; cbn; [tauto|].
  destruct (openaiWs s); cbn; tauto.
Qed.

Lemma audio_dropped_when_not_ready_witness :
  (openaiWs initial = false \/ isSessionActive initial = false)
  /\ on_message 7 (ws_json "audio" None (Some [Byte.x01; Byte.x02])) initial
     = (initial, []).
Proof.
  assert (H : openaiWs initial = false \/ isSessionActive initial = false)
    by (left; reflexivity).
  split; [exact H|].
  apply (audio_dropped_when_not_ready 7 None (Some [Byte.x01; Byte.x02]) initial H).
Defined.

End Counter.

(** ** The event relays *)

Section Relay.

(** C2, as the specification states it.  It fails on both servers: the
    relay of server.js forwards every delta at once and sends nothing when
    the response is done; the relay of part_001 sends no clip when the
    three deltas carry no bytes. *)
Lemma one_clip_when_done_fails :
  ~ one_clip_when_done ServerJs.run ServerJs.responseInProgress
      (fst (ServerJs.run ServerJs.initial session_start))
      [Byte.x01] [Byte.x02] [Byte.x03]
  /\
  ~ one_clip_when_done VadServer.run VadServer.responseInProgress
      (fst (VadServer.run VadServer.initial session_start))
      [] [] [].
Proof.
  split; intros (Hbefore & Hdone & _); vm_compute in Hbefore, Hdone; discriminate.
Qed.

(** C2, amended.  The accumulating relay of part_001, from any state:
    between the announcement of a response and its end nothing is
    forwarded as audio; at [response.done] one [translated_audio] with
    [A ++ B ++ C] is sent if these are not all empty, and none if they
    are; the flag is down afterwards.  The relay of server.js, from any
    state: each delta is forwarded at once as a message of its own, so
    three are sent before [response.done], none at it; the flag is down
    afterwards. *)
Theorem relay_of_one_response (A B C : bytes)
    (s : VadServer.session) (s' : ServerJs.session) :
  let before := VadServer.run s (created_and_deltas A B C) in
  let done := VadServer.run (fst before) [openai_message_event response_done] in
  let before' := ServerJs.run s' (created_and_deltas A B C) in
  let done' := ServerJs.run (fst before') [openai_message_event response_done] in
  (translated_audio_sent (snd before) = [] /\
   translated_audio_sent (snd done)
   = match A ++ B ++ C with
     | [] => []
     | _ => [translated_audio (Some (A ++ B ++ C))]
     end /\
   VadServer.responseInProgress (fst done) = false)
  /\
  (translated_audio_sent (snd before')
   = [translated_audio (Some A); translated_audio (Some B);
      translated_audio (Some C)] /\
   translated_audio_sent (snd done') = [] /\
   ServerJs.responseInProgress (fst done') = false).
Proof.
  split.
  - destruct A as [|a A], B as [|b B], C as [|c C]; cbn;
      rewrite ?app_nil_r; repeat split; reflexivity.
  - cbn. repeat split; reflexivity.
Qed.

(** C7, as the specification states it.  It fails on both servers.  In
    server.js a second [response.created] has no effect that anyone could
    observe.  In part_001 it is accepted: the audio accumulated for the
    response in progress is dropped, and only the two routine lines are
    logged. *)
Lemma second_created_rejected_fails :
  ~ second_created_rejected ServerJs.step
      (fst (ServerJs.run ServerJs.initial
              (session_start ++ [openai_message_event response_created])))
  /\
  ~ second_created_rejected VadServer.step
      (fst (VadServer.run VadServer.initial
              (session_start ++
               [openai_message_event response_created;
                openai_message_event
                  (response_audio_delta None (Some [Byte.x01]))]))).
Proof.
  split; intros (_ & Hreport); vm_compute in Hreport; discriminate.
Qed.

(** In part_001 the second event is not ignored either. *)
Example second_created_drops_audio :
  let s := fst (VadServer.run VadServer.initial
                  (session_start ++
                   [openai_message_event response_created;
                    openai_message_event
                      (response_audio_delta None (Some [Byte.x01]))])) in
  VadServer.audioChunks s = [[Byte.x01]] /\
  VadServer.audioChunks
    (fst (VadServer.step s (openai_message_event response_created))) = [].
Proof. vm_compute. split; reflexivity. Qed.

(** C7, amended.  While a response is in progress a further
    [response.created] is taken like the first.  In server.js the flag
    stays up, nothing else changes and there is no effect at all.  In
    part_001 the flag stays up, the accumulated translation and audio are
    reset, and the effects are the two lines logged for every
    [response.created]; no failure is reported. *)
Theorem second_created_is_accepted
    (s : ServerJs.session) (s' : VadServer.session) :
  ServerJs.responseInProgress s = true ->
  VadServer.responseInProgress s' = true ->
  ServerJs.step s (openai_message_event response_created) = (s, [])
  /\
  VadServer.step s' (openai_message_event response_created)
  = (VadServer.set_audioChunks [] (VadServer.set_currentTranslation "" s'),
     [console_log "OpenAI message type: ${message.type}"
        [JStr "response.created"];
      console_log "OpenAI creating response" []]).
Proof.
  intros H H'. destruct s, s'. cbn in H, H'. subst. split; reflexivity.
Qed.

Lemma second_created_is_accepted_witness :
  (ServerJs.responseInProgress
     (fst (ServerJs.run ServerJs.initial
             (session_start ++ [openai_message_event response_created]))) = true
   /\
   VadServer.responseInProgress
     (fst (VadServer.run VadServer.initial
             (session_start ++ [openai_message_event response_created]))) = true)
  /\
  ServerJs.step
    (fst (ServerJs.run ServerJs.initial
            (session_start ++ [openai_message_event response_created])))
    (openai_message_event response_created)
  = (fst (ServerJs.run ServerJs.initial
            (session_start ++ [openai_message_event response_created])), []).
Proof.
  assert (H : ServerJs.responseInProgress
                (fst (ServerJs.run ServerJs.initial
                        (session_start ++ [openai_message_event response_created])))
              = true) by reflexivity.
  assert (H' : VadServer.responseInProgress
                 (fst (VadServer.run VadServer.initial
                         (session_start ++ [openai_message_event response_created])))
               = true) by reflexivity.
  split; [split; assumption|].
  exact (proj1 (second_created_is_accepted _ _ H H')).
Defined.

End Relay.

(** ** Client messages that are malformed or of unknown type *)

Section ClientErrors.

Lemma unknown_type_eqb type :
  type <> "init" -> type <> "audio" -> type <> "stop" ->
  (type =? "init")%string = false /\ (type =? "audio")%string = false
  /\ (type =? "stop")%string = false.
Proof. intros. repeat split; now apply String.eqb_neq. Qed.

(** C9, as the specification states it, fails for a message of unknown
    type: with one client connected, a message of type [ping] gets no
    reply at all from server.js, and from part_001 neither (it is noted on
    the server's console only). *)
Lemma unknown_type_not_reported :
  malformed_or_unknown (ws_json "ping" None None) /\
  ~ (exists msg,
       In (1%nat, error msg)
          (sent_to_clients
             (snd (wss_step ServerJs.initial ServerJs.step
                     (one_client ServerJs.initial)
                     (on 1 (ws_message 0 (ws_json "ping" None None))))))) /\
  ~ (exists msg,
       In (1%nat, error msg)
          (sent_to_clients
             (snd (wss_step VadServer.initial VadServer.step
                     (one_client VadServer.initial)
                     (on 1 (ws_message 0 (ws_json "ping" None None))))))).
Proof.
  split; [repeat split; discriminate|].
  split; intros (msg & Hin); vm_compute in Hin; exact Hin.
Qed.

(** C9, amended.  A message of a connected client that cannot be parsed
    is answered with one [error] message, carrying the text of the
    exception, to that client and to no other; a message that parses and
    whose type is none of [init], [audio], [stop] is answered with
    nothing.  Either way the server is left exactly as it was: the
    variables of this session, those of every other session, and the
    registry.  This holds of both servers. *)
Theorem malformed_or_unknown_message (ws : nat) (now : Z) (m : ws_data)
    (σ : server ServerJs.session) (σ' : server VadServer.session) :
  malformed_or_unknown m ->
  is_Some (sessions σ !! ws) ->
  is_Some (sessions σ' !! ws) ->
  let reply := match m with
               | ws_unparseable msg => [(ws, error msg)]
               | ws_json _ _ _ => []
               end in
  let r := wss_step ServerJs.initial ServerJs.step σ (on ws (ws_message now m)) in
  let r' := wss_step VadServer.initial VadServer.step σ' (on ws (ws_message now m)) in
  (fst r = σ /\ sent_to_clients (snd r) = reply) /\
  (fst r' = σ' /\ sent_to_clients (snd r') = reply).
Proof.
  intros Hm [s Hs] [s' Hs']. cbn zeta. unfold wss_step. rewrite Hs, Hs'.
  destruct σ as [ss cs], σ' as [ss' cs']. cbn [sessions connections] in *.
  destruct m as [msg | type sid audio]; cbn [malformed_or_unknown] in Hm.
  - cbn. rewrite !insert_id by assumption. repeat split; reflexivity.
  - destruct Hm as (Hi & Ha & Hst).
    destruct (unknown_type_eqb type Hi Ha Hst) as (Ei & Ea & Est).
    cbn [ServerJs.step VadServer.step ServerJs.on_message VadServer.on_message].
    rewrite Ei, Ea, Est. cbn.
    rewrite !insert_id by assumption. repeat split; reflexivity.
Qed.

Lemma malformed_or_unknown_message_witness :
  (malformed_or_unknown (ws_json "ping" None None)
   /\ is_Some (sessions (one_client ServerJs.initial) !! 1%nat)
   /\ is_Some (sessions (one_client VadServer.initial) !! 1%nat))
  /\ fst (wss_step ServerJs.initial ServerJs.step (one_client ServerJs.initial)
            (on 1 (ws_message 0 (ws_json "ping" None None))))
     = one_client ServerJs.initial.
Proof.
  assert (Hm : malformed_or_unknown (ws_json "ping" None None))
    by (repeat split; discriminate).
  assert (Hs : is_Some (sessions (one_client ServerJs.initial) !! 1%nat)).
  { exists ServerJs.initial. apply lookup_insert_eq. }
  assert (Hs' : is_Some (sessions (one_client VadServer.initial) !! 1%nat)).
  { exists VadServer.initial. apply lookup_insert_eq. }
  split; [exact (conj Hm (conj Hs Hs'))|].
  exact (proj1 (proj1 (malformed_or_unknown_message 1 0 _ _ _ Hm Hs Hs'))).
Defined.

(** A message that does not parse is answered to its sender. *)
Example unparseable_message_is_answered :
  sent_to_clients
    (snd (wss_step ServerJs.initial ServerJs.step (one_client ServerJs.initial)
            (on 1 (ws_message 0 (ws_unparseable "Unexpected end of JSON input")))))
  = [(1%nat, error "Unexpected end of JSON input")].
Proof. vm_compute. reflexivity. Qed.

End ClientErrors.

(** * Further properties *)

Lemma sent_to_client_app out1 out2 :
  sent_to_client (out1 ++ out2) = sent_to_client out1 ++ sent_to_client out2.
Proof. apply omap_app. Qed.

(** ** What an audio call of server.js sends *)

Section SchedulerShape.

Import ServerJs.

Lemma whole_chunks_length (ms : list openai_message) :
  Forall (fun m => exists chunk,
            m = input_audio_buffer_append chunk /\ len chunk = CHUNK_BYTES) ms ->
  len (appended_audio ms) = CHUNK_BYTES * Z.of_nat (length ms).
Proof.
  induction 1 as [|m ms (chunk & -> & Hlen) _ IH]; [reflexivity|].
  change (appended_audio (input_audio_buffer_append chunk :: ms))
    with (chunk ++ appended_audio ms).
  rewrite len_app, IH, Hlen. cbn [length]. lia.
Qed.

(** X1.  The chunk loop sends as many chunks as fit in the buffer and
    keeps the rest: from a buffer of [n] bytes it sends [n / 24000]
    appends and leaves [n mod 24000] bytes. *)
Theorem send_chunks_quotient_and_rest (s : session) :
  Z.of_nat (length (sent_to_openai (snd (send_chunks s))))
  = len (audioBuffer s) / 24000
  /\ len (audioBuffer (fst (send_chunks s))) = len (audioBuffer s) mod 24000.
Proof.
  destruct (send_chunks_spec s) as [_ _ _ _ Hwhole Haudio _ Hrest].
  apply whole_chunks_length in Hwhole.
  apply (f_equal len) in Haudio. rewrite len_app, Hwhole in Haudio.
  rewrite CHUNK_BYTES_eq in *.
  pose proof (len_nonneg (audioBuffer (fst (send_chunks s)))) as Hpos.
  set (k := Z.of_nat (length (sent_to_openai (snd (send_chunks s))))) in *.
  set (r := len (audioBuffer (fst (send_chunks s)))) in *.
  assert (Hdiv : len (audioBuffer s) = 24000 * k + r) by lia.
  split.
  - apply (Z.div_unique_pos _ 24000 k r); lia.
  - apply (Z.mod_unique_pos _ 24000 k r); lia.
Qed.

(** The auto-commit block, entered: it always flushes and commits, since
    the bytes that let it in already exceed the floor of the commit. *)
Lemma auto_commit_entered now s :
  0 <= totalAudioSent s ->
  MIN_BUFFER_SIZE <= len (audioBuffer s) ->
  2000 < now - lastCommitTime s ->
  fst (auto_commit now s)
  = {| openaiWs := openaiWs s; isSessionActive := isSessionActive s;
       responseInProgress := true; audioBuffer := [];
       lastCommitTime := now; totalAudioSent := 0 |}
  /\ sent_to_openai (snd (auto_commit now s))
     = [input_audio_buffer_append (audioBuffer s); input_audio_buffer_commit]
       ++ (if responseInProgress s then [] else [response_create]).
Proof.
  intros Hsent Hbuf Hlate. unfold auto_commit.
  rewrite MIN_BUFFER_SIZE_eq in Hbuf.
  replace (MIN_BUFFER_SIZE <=? len (audioBuffer s)) with true
    by (symmetry; apply Z.leb_le; rewrite MIN_BUFFER_SIZE_eq; lia).
  replace (2000 <? now - lastCommitTime s) with true
    by (symmetry; apply Z.ltb_lt; lia).
  cbn [andb]. unfold send_remaining.
  replace (0 <? len (audioBuffer s)) with true
    by (symmetry; apply Z.ltb_lt; lia).
  unfold commit_if_enough, and_then.
  cbn [fst snd totalAudioSent set_audioBuffer set_totalAudioSent].
  replace (minRequiredBytes <=? totalAudioSent s + len (audioBuffer s)) with true
    by (symmetry; apply Z.leb_le; rewrite minRequiredBytes_eq; lia).
  unfold create_response. destruct s as [ws act rip buf last total].
  destruct rip; cbn; split; reflexivity.
Qed.

Lemma auto_commit_sent now s :
  0 <= totalAudioSent s ->
  sent_to_openai (snd (auto_commit now s)) = scheduled now s (audioBuffer s).
Proof.
  intros Hsent. unfold scheduled.
  destruct ((MIN_BUFFER_SIZE <=? len (audioBuffer s))
            && (2000 <? now - lastCommitTime s)) eqn:Hcond.
  - apply andb_true_iff in Hcond as [Hbuf Hlate].
    apply Z.leb_le in Hbuf. apply Z.ltb_lt in Hlate.
    apply (auto_commit_entered now s Hsent Hbuf Hlate).
  - unfold auto_commit. now rewrite Hcond.
Qed.

Lemma streamAudioToOpenAI_unfold now newData s :
  ready s ->
  streamAudioToOpenAI now (Some newData) s
  = (let s1 := set_audioBuffer (audioBuffer s ++ newData) s in
     (fst (auto_commit now (fst (send_chunks s1))),
      (console_log "Received audio chunk: ${newData.length} bytes, total buffer: ${audioBuffer.length} bytes"
         [JNum (len newData); JNum (len (audioBuffer s1))]
       :: snd (send_chunks s1))
      ++ snd (auto_commit now (fst (send_chunks s1))))).
Proof.
  intros [Hws Hact]. unfold streamAudioToOpenAI. now rewrite Hws, Hact.
Qed.

(** The messages of an audio call: the chunks of the loop, then what the
    auto-commit block sends. *)
Lemma audio_call_sent (now : Z) (newData : bytes) (s : session) :
  ready s ->
  0 <= totalAudioSent s ->
  let sliced := send_chunks (set_audioBuffer (audioBuffer s ++ newData) s) in
  sent_to_openai (snd (streamAudioToOpenAI now (Some newData) s))
  = sent_to_openai (snd sliced) ++ scheduled now s (audioBuffer (fst sliced)).
Proof.
  intros Hready Hsent. cbn zeta.
  rewrite (streamAudioToOpenAI_unfold _ _ _ Hready). cbn zeta. cbn [snd].
  set (s1 := set_audioBuffer (audioBuffer s ++ newData) s).
  destruct (send_chunks_spec s1) as [_ _ Hrip Htime _ _ Hcount _].
  rewrite sent_to_openai_app. cbn [sent_to_openai omap]. fold (sent_to_openai (snd (send_chunks s1))).
  f_equal. rewrite auto_commit_sent.
  - unfold scheduled. now rewrite Hrip, Htime.
  - rewrite Hcount. cbn.
    pose proof (len_nonneg (appended_audio (sent_to_openai (snd (send_chunks s1))))).
    lia.
Qed.


(** X2.  The messages of one audio call on a ready session, in order: the
    whole chunks cut by the loop, then either nothing, or the remainder,
    one commit and, unless a response is in progress, one request of a
    response.  The second part is there exactly when the remainder has at
    least 9600 bytes and more than 2000 ms have passed since the last
    commit time; so no commit goes out without the remainder before it, no
    request without a commit before it, and the branch of the source that
    skips the commit is never taken. *)
Theorem audio_call_shape (now : Z) (newData : bytes) (s : session) :
  ready s ->
  0 <= totalAudioSent s ->
  let sliced := send_chunks (set_audioBuffer (audioBuffer s ++ newData) s) in
  sent_to_openai (snd (streamAudioToOpenAI now (Some newData) s))
  = sent_to_openai (snd sliced) ++ scheduled now s (audioBuffer (fst sliced)).
Proof.
  intros Hready Hsent. cbn zeta.
  rewrite (streamAudioToOpenAI_unfold _ _ _ Hready). cbn zeta. cbn [snd].
  set (s1 := set_audioBuffer (audioBuffer s ++ newData) s).
  destruct (send_chunks_spec s1) as [_ _ Hrip Htime _ _ Hcount _].
  rewrite sent_to_openai_app. cbn [sent_to_openai omap]. fold (sent_to_openai (snd (send_chunks s1))).
  f_equal. rewrite auto_commit_sent.
  - unfold scheduled. now rewrite Hrip, Htime.
  - rewrite Hcount. cbn.
    pose proof (len_nonneg (appended_audio (sent_to_openai (snd (send_chunks s1))))).
    lia.
Qed.

Lemma audio_call_shape_witness :
  (ready (streaming [(0, repeat Byte.x00 9000)])
   /\ 0 <= totalAudioSent (streaming [(0, repeat Byte.x00 9000)]))
  /\ sent_to_openai
       (snd (streamAudioToOpenAI 5000 (Some (repeat Byte.x00 1000))
               (streaming [(0, repeat Byte.x00 9000)])))
     = [input_audio_buffer_append (repeat Byte.x00 10000);
        input_audio_buffer_commit; response_create].
Proof.
  assert (H : ready (streaming [(0, repeat Byte.x00 9000)]))
    by (split; reflexivity).
  assert (H0 : 0 <= totalAudioSent (streaming [(0, repeat Byte.x00 9000)]))
    by (vm_compute; congruence).
  split; [exact (conj H H0)|].
  rewrite (audio_call_shape 5000 (repeat Byte.x00 1000) _ H H0).
  vm_compute. reflexivity.
Defined.

(** The state after an audio call that committed. *)
Lemma audio_call_committed now newData s :
  ready s ->
  0 <= totalAudioSent s ->
  In input_audio_buffer_commit
     (sent_to_openai (snd (streamAudioToOpenAI now (Some newData) s))) ->
  let s' := fst (streamAudioToOpenAI now (Some newData) s) in
  ready s' /\ lastCommitTime s' = now /\ totalAudioSent s' = 0
  /\ audioBuffer s' = [] /\ responseInProgress s' = true.
Proof.
  intros Hready Hsent Hin. cbn zeta.
  rewrite (audio_call_sent _ _ _ Hready Hsent) in Hin. cbn zeta in Hin.
  rewrite (streamAudioToOpenAI_unfold _ _ _ Hready). cbn zeta. cbn [fst].
  set (s1 := set_audioBuffer (audioBuffer s ++ newData) s) in *.
  destruct (send_chunks_spec s1) as [Hws Hact Hrip Htime Hwhole _ Hcount _].
  apply in_app_or in Hin as [Hin | Hin].
  { destruct (proj1 (List.Forall_forall _ _) Hwhole _ Hin) as (chunk & Heq & _).
    discriminate. }
  unfold scheduled in Hin.
  destruct ((MIN_BUFFER_SIZE <=? len (audioBuffer (fst (send_chunks s1))))
            && (2000 <? now - lastCommitTime s)) eqn:Hcond; [|destruct Hin].
  apply andb_true_iff in Hcond as [Hbuf Hlate].
  apply Z.leb_le in Hbuf. apply Z.ltb_lt in Hlate.
  change (lastCommitTime s1) with (lastCommitTime s) in Htime.
  rewrite <- Htime in Hlate.
  assert (Hsent2 : 0 <= totalAudioSent (fst (send_chunks s1))).
  { rewrite Hcount. cbn.
    pose proof (len_nonneg (appended_audio (sent_to_openai (snd (send_chunks s1))))).
    lia. }
  destruct (auto_commit_entered now _ Hsent2 Hbuf Hlate) as [-> _].
  cbn. destruct Hready as [Hw Ha]. rewrite Hws, Hact. cbn.
  repeat split; assumption.
Qed.

(** X3.  Commits of audio calls are more than two seconds apart: after an
    audio call at time [now] that sent a commit, an audio call at a time
    [now'] with [now' - now <= 2000] sends neither a commit nor the
    request of a response, whatever the amount of audio. *)
Theorem commits_two_seconds_apart (now now' : Z) (newData newData' : bytes)
    (s : session) :
  ready s ->
  0 <= totalAudioSent s ->
  In input_audio_buffer_commit
     (sent_to_openai (snd (streamAudioToOpenAI now (Some newData) s))) ->
  now' - now <= 2000 ->
  let s' := fst (streamAudioToOpenAI now (Some newData) s) in
  let sent' := sent_to_openai (snd (streamAudioToOpenAI now' (Some newData') s')) in
  ~ In input_audio_buffer_commit sent' /\ ~ In response_create sent'.
Proof.
  intros Hready Hsent Hin Hsoon. cbn zeta.
  destruct (audio_call_committed _ _ _ Hready Hsent Hin)
    as (Hready' & Htime & Hzero & _ & _). cbn zeta in *.
  set (s' := fst (streamAudioToOpenAI now (Some newData) s)) in *.
  rewrite (audio_call_sent now' newData' s' Hready'); [|rewrite Hzero; lia].
  cbn zeta. unfold scheduled. rewrite Htime.
  replace (2000 <? now' - now) with false by (symmetry; apply Z.ltb_ge; lia).
  rewrite andb_false_r, app_nil_r.
  destruct (send_chunks_spec (set_audioBuffer (audioBuffer s' ++ newData') s'))
    as [_ _ _ _ Hwhole _ _ _].
  split; intros Hin';
    destruct (proj1 (List.Forall_forall _ _) Hwhole _ Hin') as (chunk & Heq & _);
    discriminate.
Qed.

Lemma commits_two_seconds_apart_witness :
  (ready (streaming [(0, repeat Byte.x00 9000)])
   /\ 0 <= totalAudioSent (streaming [(0, repeat Byte.x00 9000)])
   /\ In input_audio_buffer_commit
        (sent_to_openai
           (snd (streamAudioToOpenAI 5000 (Some (repeat Byte.x00 1000))
                   (streaming [(0, repeat Byte.x00 9000)]))))
   /\ 6000 - 5000 <= 2000)
  /\ ~ In input_audio_buffer_commit
       (sent_to_openai
          (snd (streamAudioToOpenAI 6000 (Some (repeat Byte.x00 20000))
                  (fst (streamAudioToOpenAI 5000 (Some (repeat Byte.x00 1000))
                          (streaming [(0, repeat Byte.x00 9000)])))))).
Proof.
  assert (H : ready (streaming [(0, repeat Byte.x00 9000)]))
    by (split; reflexivity).
  assert (H0 : 0 <= totalAudioSent (streaming [(0, repeat Byte.x00 9000)]))
    by (vm_compute; congruence).
  assert (H1 : In input_audio_buffer_commit
                 (sent_to_openai
                    (snd (streamAudioToOpenAI 5000 (Some (repeat Byte.x00 1000))
                            (streaming [(0, repeat Byte.x00 9000)]))))).
  { rewrite (audio_call_sent 5000 (repeat Byte.x00 1000) _ H H0).
    vm_compute. right. left. reflexivity. }
  assert (H2 : 6000 - 5000 <= 2000) by lia.
  split; [exact (conj H (conj H0 (conj H1 H2)))|].
  exact (proj1 (commits_two_seconds_apart 5000 6000 (repeat Byte.x00 1000)
                  (repeat Byte.x00 20000) _ H H0 H1 H2)).
Defined.

End SchedulerShape.

(** ** The life of a session of server.js *)

Section Lifecycle.

Import ServerJs.

Lemma streamAudioToOpenAI_flags now audio s :
  openaiWs (fst (streamAudioToOpenAI now audio s)) = openaiWs s /\
  isSessionActive (fst (streamAudioToOpenAI now audio s)) = isSessionActive s.
Proof.
  unfold streamAudioToOpenAI.
  destruct (negb (openaiWs s) || negb (isSessionActive s)); [split; reflexivity|].
  destruct audio as [newData|]; [|split; reflexivity].
  cbn zeta. rewrite !and_then_fst. cbn [fst].
  destruct (send_chunks_spec (set_audioBuffer (audioBuffer s ++ newData) s))
    as [Hws Hact _ _ _ _ _ _].
  destruct (auto_commit_ready now
              (fst (send_chunks (set_audioBuffer (audioBuffer s ++ newData) s))))
    as [Ha Hb].
  rewrite Ha, Hb, Hws, Hact. split; reflexivity.
Qed.

Lemma stopSession_flags s :
  openaiWs (fst (stopSession s)) = openaiWs s /\
  isSessionActive (fst (stopSession s)) = isSessionActive s /\
  audioBuffer (fst (stopSession s)) = audioBuffer s.
Proof.
  unfold stopSession. destruct (openaiWs s && isSessionActive s); [|repeat split].
  rewrite !and_then_fst. cbn [fst].
  destruct (0 <? len (audioBuffer s)); repeat split.
Qed.

Lemma step_active_has_socket s e :
  active_has_socket s = true -> active_has_socket (fst (step s e)) = true.
Proof.
  unfold active_has_socket. intros H.
  destruct e as [now [msg | type sid audio] | | sid | data | | | ]; cbn [step].
  - exact H.
  - unfold on_message.
    destruct (type =? "init")%string.
    { cbn. now destruct (isSessionActive s). }
    destruct ((type =? "audio")%string && openaiWs s && isSessionActive s).
    { destruct (streamAudioToOpenAI_flags now audio s) as [-> ->]. exact H. }
    destruct (type =? "stop")%string; [|exact H].
    destruct (stopSession_flags s) as (-> & -> & _). exact H.
  - unfold on_close. rewrite !and_then_fst. cbn [fst].
    destruct (openaiWs s) eqn:Hws; cbn [fst]; rewrite ?Hws; [|exact H].
    destruct (stopSession_flags s) as (-> & -> & _). now rewrite Hws.
  - unfold on_open. destruct (openaiWs s) eqn:Hws; cbn; rewrite ?Hws; [reflexivity|exact H].
  - destruct data as [| | | | | | | | | | | | [m|] | ]; exact H.
  - reflexivity.
  - exact H.
  - unfold on_timeout. destruct (openaiWs s) eqn:Hws; cbn; rewrite ?Hws;
      [reflexivity|exact H].
Qed.

(** X4.  In every state that a connection of server.js can reach from its
    creation, by any callbacks in any order: the counter is not negative,
    the buffer holds less than one chunk of 24000 bytes, and an active
    session holds a socket. *)
Theorem reachable_session_invariant (es : list event) :
  0 <= totalAudioSent (fst (run initial es))
  /\ len (audioBuffer (fst (run initial es))) < 24000
  /\ active_has_socket (fst (run initial es)) = true.
Proof.
  assert (Hwf : well_formed (fst (run initial es)))
    by (apply run_well_formed; split; [reflexivity | vm_compute; reflexivity]).
  destruct Hwf as [Hsent Hrest]. split; [exact Hsent|]. split; [exact Hrest|].
  assert (Hgen : forall l s, active_has_socket s = true ->
                             active_has_socket (fst (run s l)) = true).
  { induction l as [|e l IH]; intros s H; [exact H|].
    cbn [run]. rewrite and_then_fst. apply IH, step_active_has_socket, H. }
  apply Hgen. reflexivity.
Qed.

(** X5.  Once the timer of a stop has fired, or the remote peer has
    closed, the session is deaf to its client: an audio message and a stop
    message change nothing and have no effect, so a stop is then not even
    answered with [session_stopped]. *)
Theorem closed_session_ignores_client (now : Z) (audio : option bytes)
    (s : session) :
  (step (fst (on_timeout s)) (audio_message now audio)
   = (fst (on_timeout s), [])
   /\ step (fst (on_timeout s)) (stop_message now)
      = (fst (on_timeout s), []))
  /\
  (step (fst (on_openai_close s)) (audio_message now audio)
   = (fst (on_openai_close s), [])
   /\ step (fst (on_openai_close s)) (stop_message now)
      = (fst (on_openai_close s), [])).
Proof.
  split.
  - unfold on_timeout. destruct (openaiWs s) eqn:Hws; cbn; [split; reflexivity|].
    unfold stopSession. rewrite Hws. cbn. split; reflexivity.
  - cbn. unfold stopSession. cbn. rewrite !andb_false_r. split; reflexivity.
Qed.

(** X6.  A stop leaves the session ready and its buffer as it was, until
    the timer fires one second later.  A second stop in that second (the
    close of the client's socket causes one) therefore sends the same
    remainder again: after two stops the remote peer has received the
    remainder twice and the counter has grown by twice its length. *)
Theorem stop_twice_sends_remainder_twice (s : session) :
  ready s ->
  let first := stopSession s in
  let second := stopSession (fst first) in
  ready (fst first)
  /\ audioBuffer (fst first) = audioBuffer s
  /\ appended_audio (sent_to_openai (snd first ++ snd second))
     = audioBuffer s ++ audioBuffer s
  /\ totalAudioSent (fst second) = totalAudioSent s + 2 * len (audioBuffer s).
Proof.
  intros [Hws Hact]. cbn zeta.
  destruct s as [ws act rip buf last total]. cbn in Hws, Hact. subst ws act.
  unfold stopSession, and_then. cbn [openaiWs isSessionActive andb audioBuffer
    totalAudioSent set_totalAudioSent fst snd].
  destruct (0 <? len buf) eqn:Hpos;
    cbn [openaiWs isSessionActive andb audioBuffer
         totalAudioSent set_totalAudioSent fst snd].
  - rewrite Hpos. cbn [fst snd audioBuffer totalAudioSent set_totalAudioSent].
    split; [split; reflexivity|]. split; [reflexivity|]. split.
    + rewrite sent_to_openai_app, appended_audio_app.
      repeat (match goal with |- context [if ?b then _ else _] => destruct b end);
        cbn; now rewrite !app_nil_r.
    + lia.
  - rewrite Hpos. cbn [fst snd audioBuffer totalAudioSent].
    apply Z.ltb_ge in Hpos.
    assert (Hnil : buf = []).
    { destruct buf; [reflexivity|]. unfold len in Hpos. cbn in Hpos. lia. }
    subst buf. split; [split; reflexivity|]. split; [reflexivity|]. split.
    + rewrite sent_to_openai_app, appended_audio_app.
      repeat (match goal with |- context [if ?b then _ else _] => destruct b end);
        reflexivity.
    + change (len []) with 0. lia.
Qed.

Lemma stop_twice_sends_remainder_twice_witness :
  ready (streaming [(0, [Byte.x01; Byte.x02])])
  /\ appended_audio
       (sent_to_openai
          (snd (stopSession (streaming [(0, [Byte.x01; Byte.x02])]))
           ++ snd (stopSession
                     (fst (stopSession (streaming [(0, [Byte.x01; Byte.x02])]))))))
     = audioBuffer (streaming [(0, [Byte.x01; Byte.x02])])
       ++ audioBuffer (streaming [(0, [Byte.x01; Byte.x02])]).
Proof.
  assert (H : ready (streaming [(0, [Byte.x01; Byte.x02])]))
    by (split; reflexivity).
  split; [exact H|].
  exact (proj1 (proj2 (proj2 (stop_twice_sends_remainder_twice _ H)))).
Defined.

(** X7.  A client that leaves while its session is still connecting (the
    socket to the remote peer exists, its [open] has not come): the close
    only logs and removes the registry entry; the remote socket is not
    closed and no timer is set.  When the [open] comes afterwards the
    session is configured, registered again and made active, for a client
    that is gone. *)
Theorem close_while_connecting (sessionId : option string) (s : session) :
  openaiWs s = true ->
  isSessionActive s = false ->
  step s ws_close
  = (s, [console_log "WebSocket connection closed" []; connections_delete])
  /\ ready (fst (run s [ws_close; openai_open sessionId]))
  /\ In (connections_set sessionId) (snd (run s [ws_close; openai_open sessionId]))
  /\ ~ In openai_close (snd (run s [ws_close; openai_open sessionId])).
Proof.
  intros Hws Hact. destruct s as [ws act rip buf last total].
  cbn in Hws, Hact. subst ws act. cbn.
  split; [reflexivity|]. split; [split; reflexivity|].
  split; [tauto|]. intuition discriminate.
Qed.

Lemma close_while_connecting_witness :
  (openaiWs (fst (step initial (ws_message 0 (ws_json "init" (Some "s1") None))))
   = true
   /\ isSessionActive
        (fst (step initial (ws_message 0 (ws_json "init" (Some "s1") None))))
      = false)
  /\ ready (fst (run (fst (step initial
                             (ws_message 0 (ws_json "init" (Some "s1") None))))
                   [ws_close; openai_open (Some "s1")])).
Proof.
  assert (H : openaiWs (fst (step initial
                (ws_message 0 (ws_json "init" (Some "s1") None)))) = true)
    by reflexivity.
  assert (H0 : isSessionActive (fst (step initial
                 (ws_message 0 (ws_json "init" (Some "s1") None)))) = false)
    by reflexivity.
  split; [exact (conj H H0)|].
  exact (proj1 (proj2 (close_while_connecting (Some "s1") _ H H0))).
Defined.

(** X8.  The counter of server.js in an audio call: it is zero after a
    call that sent a commit, and otherwise it has grown by exactly the
    number of bytes that the call appended to the remote buffer. *)
Theorem audio_call_counts_bytes (now : Z) (newData : bytes) (s : session) :
  ready s ->
  let r := streamAudioToOpenAI now (Some newData) s in
  if existsb is_commit (sent_to_openai (snd r))
  then totalAudioSent (fst r) = 0
  else totalAudioSent (fst r)
       = totalAudioSent s + len (appended_audio (sent_to_openai (snd r))).
Proof.
  intros [Hws Hact]. unfold streamAudioToOpenAI. rewrite Hws, Hact.
  cbn [negb orb]. cbn zeta.
  set (s1 := set_audioBuffer (audioBuffer s ++ newData) s).
  destruct (send_chunks_spec s1) as [_ _ _ _ Hwhole _ Hcount _].
  assert (Hnocommit : existsb is_commit (sent_to_openai (snd (send_chunks s1))) = false).
  { clear Hcount. induction Hwhole as [|m ms (chunk & -> & _) _ IH]; [reflexivity|exact IH]. }
  unfold and_then. cbn [fst snd]. fold s1.
  rewrite !sent_to_openai_app, !existsb_app, !appended_audio_app, !len_app.
  rewrite Hnocommit. cbn [sent_to_openai omap existsb orb].
  change (appended_audio (sent_to_openai [console_log _ _])) with (@nil Byte.byte).
  change (len []) with 0.
  change (totalAudioSent s1) with (totalAudioSent s) in Hcount.
  revert Hcount.
  generalize (len (appended_audio (sent_to_openai (snd (send_chunks s1))))).
  generalize (fst (send_chunks s1)). intros s2 n Hcount.
  unfold auto_commit, send_remaining, commit_if_enough, create_response.
  repeat (case_if; cbn [fst snd and_then totalAudioSent set_audioBuffer
                        set_totalAudioSent set_lastCommitTime
                        set_responseInProgress audioBuffer] in *);
    cbn; rewrite ?app_nil_r; change (len []) with 0; try lia; try discriminate.
Qed.

Lemma audio_call_counts_bytes_witness :
  ready (streaming [])
  /\ totalAudioSent
       (fst (streamAudioToOpenAI 100 (Some (repeat Byte.x00 30000)) (streaming [])))
     = 24000.
Proof.
  assert (H : ready (streaming [])) by (split; reflexivity).
  split; [exact H|].
  pose proof (audio_call_counts_bytes 100 (repeat Byte.x00 30000) _ H) as Hc.
  cbn zeta in Hc.
  replace (existsb is_commit
             (sent_to_openai
                (snd (streamAudioToOpenAI 100 (Some (repeat Byte.x00 30000))
                        (streaming [])))))
    with false in Hc by (vm_compute; reflexivity).
  rewrite Hc. vm_compute. reflexivity.
Defined.

End Lifecycle.

(** ** The relays never talk to the remote peer *)

Section RelayFrame.

(** The relay of part_001 sends nothing to the remote peer, at most one
    message to the client, and keeps the socket and the activity. *)
Lemma vad_relay_frame (message : openai_data) (s' : VadServer.session) :
  sent_to_openai (snd (VadServer.on_openai_message message s')) = []
  /\ (length (sent_to_client (snd (VadServer.on_openai_message message s'))) <= 1)%nat
  /\ VadServer.openaiWs (fst (VadServer.on_openai_message message s'))
     = VadServer.openaiWs s'
  /\ VadServer.isSessionActive (fst (VadServer.on_openai_message message s'))
     = VadServer.isSessionActive s'.
Proof.
  destruct s' as [ws act rip cur chunks].
  destruct message as [| | | a [[|x d]|] | t | [[|c d]|] | [|] | | | | | | [m|] | t];
    cbn; repeat split; try reflexivity; try lia.
  all: destruct chunks; cbn; unfold Z.of_nat, Z.ltb; cbn;
    repeat split; try reflexivity; lia.
Qed.

(** X9.  A remote event never makes a server send anything to the remote
    peer, and it leads to at most one message to the client.  In server.js
    it changes no variable but [responseInProgress]; in part_001 it leaves
    the socket and the activity of the session alone. *)
Theorem relay_only_answers_client (message : openai_data)
    (s : ServerJs.session) (s' : VadServer.session) :
  (sent_to_openai (snd (ServerJs.on_openai_message message s)) = []
   /\ (length (sent_to_client (snd (ServerJs.on_openai_message message s))) <= 1)%nat
   /\ fst (ServerJs.on_openai_message message s)
      = ServerJs.set_responseInProgress
          (ServerJs.responseInProgress (fst (ServerJs.on_openai_message message s)))
          s)
  /\
  (sent_to_openai (snd (VadServer.on_openai_message message s')) = []
   /\ (length (sent_to_client (snd (VadServer.on_openai_message message s'))) <= 1)%nat
   /\ VadServer.openaiWs (fst (VadServer.on_openai_message message s'))
      = VadServer.openaiWs s'
   /\ VadServer.isSessionActive (fst (VadServer.on_openai_message message s'))
      = VadServer.isSessionActive s').
Proof.
  split.
  - destruct s as [ws act rip buf last total].
    destruct message as [| | | a d | t | d | b | | | | | | [m|] | t]; cbn;
      repeat split; try reflexivity; lia.
  - apply vad_relay_frame.
Qed.

End RelayFrame.

(** ** The server of part_001 *)

Section Vad.

Import VadServer.

(** X10.  The server of part_001 leaves commits and responses to the
    remote peer: whatever the state and the callback, all it ever sends to
    the remote peer is the configuration of the session or an append. *)
Theorem vad_server_never_commits (s : session) (e : event) :
  Forall (fun m => m = configuration \/ exists a, m = input_audio_buffer_append a)
         (sent_to_openai (snd (step s e))).
Proof.
  assert (Hlist : forall ms,
            ms = [] \/ ms = [configuration]
            \/ (exists a, ms = [input_audio_buffer_append a]) ->
            Forall (fun m => m = configuration
                             \/ exists a, m = input_audio_buffer_append a) ms).
  { intros ms [-> | [-> | (a & ->)]].
    - constructor.
    - constructor; [left; reflexivity|constructor].
    - constructor; [right; now exists a|constructor]. }
  apply Hlist.
  destruct s as [ws act rip cur chunks].
  destruct e as [now [msg | type sid audio] | | sid | data | | | ]; cbn [step].
  - left. reflexivity.
  - unfold on_message, and_then. cbn [fst snd].
    destruct (type =? "init")%string; [left; reflexivity|].
    destruct (type =? "audio")%string.
    + unfold streamAudioToOpenAI. cbn [openaiWs isSessionActive fst snd].
      destruct ws, act, audio as [a|]; cbn; try (left; reflexivity).
      right. right. now exists a.
    + destruct (type =? "stop")%string; [|left; reflexivity].
      unfold stopSession. cbn [openaiWs isSessionActive].
      destruct ws, act; left; reflexivity.
  - unfold on_close, stopSession, and_then. cbn [openaiWs isSessionActive fst snd].
    destruct ws, act; left; reflexivity.
  - unfold on_open. cbn [openaiWs]. destruct ws; cbn; [right; left|left]; reflexivity.
  - left. apply vad_relay_frame.
  - left. reflexivity.
  - left. reflexivity.
  - unfold on_timeout. cbn [openaiWs]. destruct ws; left; reflexivity.
Qed.

(** X11.  Client audio goes through unframed: over any sequence of audio
    chunks handed to a ready session, the server sends one append per
    chunk, with the bytes of the chunk, in the order received, and its
    variables do not change. *)
Theorem vad_audio_forwarded_as_received (calls : list (Z * bytes)) (s : session) :
  openaiWs s = true ->
  isSessionActive s = true ->
  sent_to_openai (snd (run s (audio_calls calls)))
  = map (fun c => input_audio_buffer_append (snd c)) calls
  /\ fst (run s (audio_calls calls)) = s.
Proof.
  intros Hws Hact. induction calls as [|[now newData] calls [IHsent IHstate]].
  - split; reflexivity.
  - cbn [audio_calls map run fst snd]. fold (audio_calls calls).
    assert (Hstep : fst (step s (ws_message now (ws_json "audio" None (Some newData))))
                    = s
                    /\ sent_to_openai
                         (snd (step s (ws_message now
                                         (ws_json "audio" None (Some newData)))))
                       = [input_audio_buffer_append newData]).
    { cbn. unfold streamAudioToOpenAI. rewrite Hws, Hact. cbn. split; reflexivity. }
    destruct Hstep as [Hs Hout].
    rewrite and_then_fst, and_then_snd, sent_to_openai_app, Hout, Hs.
    rewrite IHsent, IHstate. split; reflexivity.
Qed.

Lemma vad_audio_forwarded_as_received_witness :
  (openaiWs (fst (run initial session_start)) = true
   /\ isSessionActive (fst (run initial session_start)) = true)
  /\ sent_to_openai
       (snd (run (fst (run initial session_start))
               (audio_calls [(0, [Byte.x01]); (1, [Byte.x02; Byte.x03])])))
     = [input_audio_buffer_append [Byte.x01];
        input_audio_buffer_append [Byte.x02; Byte.x03]].
Proof.
  assert (H : openaiWs (fst (run initial session_start)) = true) by reflexivity.
  assert (H0 : isSessionActive (fst (run initial session_start)) = true)
    by reflexivity.
  split; [exact (conj H H0)|].
  exact (proj1 (vad_audio_forwarded_as_received
                  [(0, [Byte.x01]); (1, [Byte.x02; Byte.x03])] _ H H0)).
Defined.

(** Audio deltas on top of what is accumulated: each chunk kept is not
    empty, the bytes kept are the old ones followed by those of the
    deltas, and no audio goes to the client. *)
Lemma run_audio_deltas ds : forall s,
  Forall (fun chunk => chunk <> []) (audioChunks s) ->
  let r := run s (audio_deltas ds) in
  Forall (fun chunk => chunk <> []) (audioChunks (fst r))
  /\ concat (audioChunks (fst r)) = concat (audioChunks s) ++ concat (present ds)
  /\ translated_audio_sent (snd r) = []
  /\ responseInProgress (fst r) = responseInProgress s.
Proof.
  induction ds as [|d ds IH]; intros s Hne; cbn zeta.
  - cbn. rewrite app_nil_r. repeat split; assumption.
  - cbn [audio_deltas map run]. fold (audio_deltas ds).
    rewrite and_then_fst, and_then_snd.
    unfold translated_audio_sent. rewrite sent_to_client_app, List.filter_app.
    destruct d as [[|b d]|].
    + specialize (IH s Hne). cbn zeta in IH.
      destruct IH as (H1 & H2 & H3 & H4). cbn. repeat split; assumption.
    + set (s1 := set_audioChunks (audioChunks s ++ [b :: d]) s).
      assert (Hne1 : Forall (fun chunk => chunk <> []) (audioChunks s1)).
      { cbn. apply Forall_app. split; [assumption|]. constructor; [discriminate|constructor]. }
      specialize (IH s1 Hne1). cbn zeta in IH.
      destruct IH as (H1 & H2 & H3 & H4).
      change (fst (step s (openai_message_event (response_audio_delta None (Some (b :: d))))))
        with s1.
      split; [assumption|]. split; [|split; [exact H3|exact H4]].
      rewrite H2. cbn [audioChunks s1 set_audioChunks present omap].
      rewrite concat_app. cbn. rewrite app_nil_r, <- app_assoc. reflexivity.
    + specialize (IH s Hne). cbn zeta in IH.
      destruct IH as (H1 & H2 & H3 & H4). cbn. repeat split; assumption.
Qed.

(** X12.  The clip of a response, for any number of audio deltas: after
    [response.created] and the deltas, no audio has gone to the client;
    [response.done] then sends one [translated_audio] with the bytes of
    all the deltas in order, or nothing if they carry no byte at all; the
    accumulator is empty and the flag down afterwards, and a further
    [response.done] sends no audio. *)
Theorem vad_clip_is_all_deltas (ds : list (option bytes)) (s : session) :
  let before := run s (openai_message_event response_created :: audio_deltas ds) in
  let done := step (fst before) (openai_message_event response_done) in
  let again := step (fst done) (openai_message_event response_done) in
  translated_audio_sent (snd before) = []
  /\ translated_audio_sent (snd done)
     = match concat (present ds) with
       | [] => []
       | clip => [translated_audio (Some clip)]
       end
  /\ audioChunks (fst done) = []
  /\ responseInProgress (fst done) = false
  /\ translated_audio_sent (snd again) = [].
Proof.
  cbn zeta. cbn [run]. rewrite and_then_fst, and_then_snd.
  set (s0 := fst (step s (openai_message_event response_created))).
  assert (Hne0 : Forall (fun chunk => chunk <> []) (audioChunks s0)) by constructor.
  destruct (run_audio_deltas ds s0 Hne0) as (Hne & Hcat & Hnone & _).
  cbn zeta in *. change (concat (audioChunks s0)) with (@nil Byte.byte) in Hcat.
  rewrite app_nil_l in Hcat.
  split.
  { unfold translated_audio_sent in *. rewrite sent_to_client_app, List.filter_app, Hnone.
    reflexivity. }
  generalize dependent (fst (run s0 (audio_deltas ds))). intros s1 Hne Hcat.
  destruct s1 as [ws act rip cur chunks]. cbn in Hne, Hcat.
  destruct chunks as [|chunk chunks].
  - cbn in Hcat. rewrite <- Hcat. cbn. repeat split; reflexivity.
  - inversion Hne as [|? ? Hchunk _]; subst.
    destruct chunk as [|b chunk]; [contradiction|].
    rewrite <- Hcat. cbn. repeat split; reflexivity.
Qed.

End Vad.

(** ** The translation text of part_001 *)

Section Translation.

Import VadServer.

Lemma string_app_assoc (a b c : string) :
  String.append (String.append a b) c = String.append a (String.append b c).
Proof.
  induction a as [|x a IH]; [reflexivity|].
  change (String x (String.append (String.append a b) c)
          = String x (String.append a (String.append b c))).
  now rewrite IH.
Qed.

Lemma string_app_nil_r (a : string) : String.append a EmptyString = a.
Proof.
  induction a as [|x a IH]; [reflexivity|].
  change (String x (String.append a EmptyString) = String x a). now rewrite IH.
Qed.

(** When no translation was sent, the deltas carried no text. *)
Lemma translations_nil_text ds : forall s,
  translations (sent_to_client (snd (run s (text_deltas ds)))) = [] ->
  joined (present ds) = EmptyString /\ fst (run s (text_deltas ds)) = s.
Proof.
  induction ds as [|d ds IH]; intros s Hnil; [split; reflexivity|].
  cbn [text_deltas map run] in *. fold (text_deltas ds) in *.
  rewrite and_then_fst. rewrite and_then_snd, sent_to_client_app in Hnil.
  unfold translations in Hnil. rewrite omap_app in Hnil.
  apply app_eq_nil in Hnil as [Hhead Htail].
  destruct d as [[|c d]|]; [| cbn in Hhead; discriminate |];
    destruct (IH s Htail) as [Hj Hs]; cbn; split; assumption.
Qed.

(** Transcript deltas on top of the text so far. *)
Lemma run_text_deltas ds : forall s,
  let r := run s (text_deltas ds) in
  let final := String.append (currentTranslation s) (joined (present ds)) in
  currentTranslation (fst r) = final
  /\ Forall (fun t => exists text rest,
               t = Some text /\ final = String.append text rest)
            (translations (sent_to_client (snd r)))
  /\ (translations (sent_to_client (snd r)) = []
      \/ last (translations (sent_to_client (snd r))) = Some (Some final)).
Proof.
  induction ds as [|d ds IH]; intros s; cbn zeta.
  - cbn. rewrite string_app_nil_r. split; [reflexivity|]. split; [constructor|now left].
  - cbn [text_deltas map run]. fold (text_deltas ds).
    rewrite and_then_fst, and_then_snd, sent_to_client_app.
    unfold translations. rewrite omap_app. fold (translations (sent_to_client
      (snd (run (fst (step s (openai_message_event
                                (response_audio_transcript_delta d)))) (text_deltas ds))))).
    destruct d as [[|c d]|].
    + specialize (IH s). cbn zeta in IH. destruct IH as (H1 & H2 & H3).
      cbn. repeat split; assumption.
    + set (s1 := set_currentTranslation
                   (String.append (currentTranslation s) (String c d)) s).
      specialize (IH s1). cbn zeta in IH. destruct IH as (H1 & H2 & H3).
      change (fst (step s (openai_message_event
                             (response_audio_transcript_delta (Some (String c d))))))
        with s1 in *.
      assert (Hfinal : String.append (currentTranslation s1) (joined (present ds))
                       = String.append (currentTranslation s)
                           (joined (present (Some (String c d) :: ds)))).
      { change (currentTranslation s1)
          with (String.append (currentTranslation s) (String c d)).
        change (joined (present (Some (String c d) :: ds)))
          with (String.append (String c d) (joined (present ds))).
        apply string_app_assoc. }
      rewrite Hfinal in H1, H2, H3.
      split; [exact H1|]. split.
      * cbn. constructor; [|exact H2].
        exists (String.append (currentTranslation s) (String c d)), (joined (present ds)).
        split; [reflexivity|]. cbn. now rewrite string_app_assoc.
      * right. cbn [sent_to_client omap snd step on_openai_message and_then
                    on_transcript_delta app fst].
        destruct H3 as [Hnil | Hlast].
        -- rewrite Hnil. cbn. do 2 f_equal.
           change (fold_right String.append EmptyString
                     (omap (fun d0 : option string => d0) ds))
             with (joined (present ds)).
           destruct (translations_nil_text ds s1 Hnil) as [Hj _].
           rewrite Hj. now rewrite string_app_nil_r.
        -- cbn. destruct (translations _) eqn:Ht; [discriminate Hlast|].
           exact Hlast.
    + specialize (IH s). cbn zeta in IH. destruct IH as (H1 & H2 & H3).
      cbn. repeat split; assumption.
Qed.

(** X13.  The translation of a response, for any number of transcript
    deltas after [response.created]: the accumulated text is the deltas
    joined in order; every [translation] message sent to the client carries
    a prefix of that text, and the last one sent carries all of it. *)
Theorem vad_translation_grows (ds : list (option string)) (s : session) :
  let r := run s (openai_message_event response_created :: text_deltas ds) in
  currentTranslation (fst r) = joined (present ds)
  /\ Forall (fun t => exists text rest,
               t = Some text /\ joined (present ds) = String.append text rest)
            (translations (sent_to_client (snd r)))
  /\ (translations (sent_to_client (snd r)) = []
      \/ last (translations (sent_to_client (snd r)))
         = Some (Some (joined (present ds)))).
Proof.
  cbn zeta. cbn [run]. rewrite and_then_fst, and_then_snd, sent_to_client_app.
  set (s0 := fst (step s (openai_message_event response_created))).
  change (sent_to_client (snd (step s (openai_message_event response_created))))
    with (@nil client_message).
  rewrite app_nil_l.
  exact (run_text_deltas ds s0).
Qed.

End Translation.

(** ** Connections and the registry *)

Section Registry.


Lemma update_connections_last_delete ws out : forall (m : gmap nat (option string)),
  update_connections ws (out ++ [connections_delete]) m !! ws = None.
Proof.
  induction out as [|a out IH]; intros m.
  - cbn. apply lookup_delete_eq.
  - destruct a; cbn; apply IH.
Qed.



(** X15.  The registry of server.js follows the socket to the remote
    peer, not the client: for a connection that holds a socket, the [open]
    of the remote peer puts the entry with the session identifier, the
    close of the client removes it, and an [open] that comes after the
    close puts it back. *)
Theorem registry_follows_open_and_close (σ : server ServerJs.session)
    (ws : nat) (sessionId : option string) (s : ServerJs.session) :
  sessions σ !! ws = Some s ->
  ServerJs.openaiWs s = true ->
  let opened := fst (wss_step ServerJs.initial ServerJs.step σ
                       (on ws (openai_open sessionId))) in
  let closed := fst (wss_step ServerJs.initial ServerJs.step σ (on ws ws_close)) in
  let reopened := fst (wss_step ServerJs.initial ServerJs.step closed
                         (on ws (openai_open sessionId))) in
  connections opened !! ws = Some sessionId
  /\ connections closed !! ws = None
  /\ connections reopened !! ws = Some sessionId.
Proof.
  intros Hs Hws. cbn zeta.
  assert (Hopen : forall (τ : server ServerJs.session) t,
            sessions τ !! ws = Some t -> ServerJs.openaiWs t = true ->
            connections (fst (wss_step ServerJs.initial ServerJs.step τ
                                (on ws (openai_open sessionId)))) !! ws
            = Some sessionId).
  { intros τ t Ht Hw. unfold wss_step. rewrite Ht.
    cbn [fst snd connections ServerJs.step]. unfold ServerJs.on_open. rewrite Hw.
    cbn. apply lookup_insert_eq. }
  split; [exact (Hopen σ s Hs Hws)|].
  assert (Hclosed : exists out,
            snd (ServerJs.step s ws_close) = out ++ [connections_delete]
            /\ ServerJs.openaiWs (fst (ServerJs.step s ws_close)) = true).
  { cbn [ServerJs.step]. unfold ServerJs.on_close.
    rewrite !and_then_snd, !and_then_fst. cbn [fst snd]. rewrite Hws.
    eexists. split; [reflexivity|].
    destruct (stopSession_flags s) as (-> & _ & _). exact Hws. }
  destruct Hclosed as (out & Hout & Hws').
  split.
  - unfold wss_step. rewrite Hs. cbn [fst snd connections]. rewrite Hout.
    apply update_connections_last_delete.
  - apply (Hopen _ (fst (ServerJs.step s ws_close))); [|exact Hws'].
    unfold wss_step. rewrite Hs. cbn [fst sessions]. apply lookup_insert_eq.
Qed.

Lemma registry_follows_open_and_close_witness :
  (sessions (one_client (fst (ServerJs.step ServerJs.initial
                                (ws_message 0 (ws_json "init" (Some "s1") None)))))
     !! 1%nat
   = Some (fst (ServerJs.step ServerJs.initial
                  (ws_message 0 (ws_json "init" (Some "s1") None))))
   /\ ServerJs.openaiWs
        (fst (ServerJs.step ServerJs.initial
                (ws_message 0 (ws_json "init" (Some "s1") None)))) = true)
  /\ connections
       (fst (wss_step ServerJs.initial ServerJs.step
               (one_client (fst (ServerJs.step ServerJs.initial
                                   (ws_message 0 (ws_json "init" (Some "s1") None)))))
               (on 1 (openai_open (Some "s1"))))) !! 1%nat
     = Some (Some "s1").
Proof.
  assert (H : sessions
                (one_client (fst (ServerJs.step ServerJs.initial
                                    (ws_message 0 (ws_json "init" (Some "s1") None)))))
                !! 1%nat
              = Some (fst (ServerJs.step ServerJs.initial
                             (ws_message 0 (ws_json "init" (Some "s1") None)))))
    by apply lookup_singleton_eq.
  assert (H0 : ServerJs.openaiWs
                 (fst (ServerJs.step ServerJs.initial
                         (ws_message 0 (ws_json "init" (Some "s1") None)))) = true)
    by reflexivity.
  split; [exact (conj H H0)|].
  exact (proj1 (registry_follows_open_and_close _ 1 (Some "s1") _ H H0)).
Defined.

End Registry.

(** ** Playback in the client *)

Section Playback.

Import LiveTranslator.

Lemma element_range (b : Byte.byte) : 0 <= element b < 256.
Proof. destruct b; vm_compute; split; congruence. Qed.

(** The two bytes of a sample do not overlap. *)
Lemma sample_sum (lo hi : Byte.byte) :
  sample lo hi = element lo + 256 * element hi.
Proof.
  unfold sample. pose proof (element_range lo) as Hlo.
  pose proof (element_range hi) as Hhi.
  rewrite Z.shiftl_mul_pow2 by lia. change (2 ^ 8) with 256.
  rewrite (Z.mul_comm 256). symmetry. apply Z.add_nocarry_lor.
  apply Z.bits_inj'. intros n Hn. rewrite Z.land_spec, Z.bits_0.
  destruct (Z.lt_ge_cases n 8) as [Hsmall | Hbig].
  - change 256 with (2 ^ 8). rewrite Z.mul_pow2_bits_low by assumption.
    apply andb_false_r.
  - replace (Z.testbit (element lo) n) with false; [reflexivity|].
    symmetry. destruct (Z.eq_dec (element lo) 0) as [-> | Hnz];
      [apply Z.bits_0|].
    apply Z.bits_above_log2; [lia|].
    apply Z.log2_lt_pow2; [lia|].
    apply Z.lt_le_trans with (2 ^ 8); [change (2 ^ 8) with 256; lia|].
    apply Z.pow_le_mono_r; lia.
Qed.

Lemma channel_value_bounds (lo hi : Byte.byte) :
  (- (1) <= channel_value (sample lo hi))%Q
  /\ (channel_value (sample lo hi) < 1)%Q.
Proof.
  rewrite sample_sum. unfold channel_value.
  pose proof (element_range lo) as Hlo. pose proof (element_range hi) as Hhi.
  destruct (element lo + 256 * element hi <? 32768) eqn:Hsign;
    [apply Z.ltb_lt in Hsign | apply Z.ltb_ge in Hsign];
    unfold Qle, Qlt; cbn; lia.
Qed.

(** X16.  A sample of the playback buffer is the signed 16-bit integer
    that its two bytes spell in little-endian order, divided by 32768: the
    low byte plus 256 times the high byte, less 65536 when the high byte
    is 128 or more.  It lies between -1, included, and 1, excluded. *)
Theorem channel_value_signed_16_bit (lo hi : Byte.byte) :
  let signed := element lo + 256 * element hi
                - (if 128 <=? element hi then 65536 else 0) in
  channel_value (sample lo hi) = signed # 32768
  /\ -32768 <= signed < 32768
  /\ (- (1) <= channel_value (sample lo hi))%Q
  /\ (channel_value (sample lo hi) < 1)%Q.
Proof.
  cbn zeta. rewrite sample_sum. unfold channel_value.
  pose proof (element_range lo) as Hlo. pose proof (element_range hi) as Hhi.
  destruct (128 <=? element hi) eqn:Hsign;
    [apply Z.leb_le in Hsign | apply Z.leb_gt in Hsign].
  - replace (element lo + 256 * element hi <? 32768) with false
      by (symmetry; apply Z.ltb_ge; lia).
    split; [reflexivity|]. split; [lia|].
    unfold Qle, Qlt. cbn. lia.
  - replace (element lo + 256 * element hi <? 32768) with true
      by (symmetry; apply Z.ltb_lt; lia).
    rewrite Z.sub_0_r. split; [reflexivity|]. split; [lia|].
    unfold Qle, Qlt. cbn. lia.
Qed.

Lemma channelData_pairs (pcmData : bytes) :
  Z.of_nat (length (channelData pcmData)) = len pcmData / 2
  /\ forall b, Nat.Even (length pcmData) ->
               channelData (pcmData ++ [b]) = channelData pcmData.
Proof.
  assert (Hgen : forall n (p : bytes), (length p <= n)%nat ->
            Z.of_nat (length (channelData p)) = len p / 2
            /\ forall b, Nat.Even (length p) ->
                         channelData (p ++ [b]) = channelData p).
  { induction n as [|n IH]; intros p Hlen.
    - destruct p; [|cbn in Hlen; lia]. split; [reflexivity|]. intros b _. reflexivity.
    - destruct p as [|lo [|hi rest]].
      + split; [reflexivity|]. intros b _. reflexivity.
      + split; [reflexivity|]. intros b [k Hk]. cbn in Hk. lia.
      + destruct (IH rest) as [Hcount Hodd]; [cbn in Hlen; lia|].
        split.
        * cbn [channelData length]. unfold len in *. cbn [length].
          rewrite !Nat2Z.inj_succ, Hcount.
          replace (Z.succ (Z.succ (Z.of_nat (length rest))))
            with (Z.of_nat (length rest) + 1 * 2) by lia.
          rewrite Z.div_add by lia. lia.
        * intros b [k Hk]. cbn [app channelData]. f_equal. apply Hodd.
          exists (k - 1)%nat. cbn in Hk. lia. }
  apply (Hgen (length pcmData)). lia.
Qed.

(** X17.  [playNextAudio] gives up on a clip of fewer than 2 bytes and on
    no other; otherwise it writes exactly [numSamples] samples, one per
    pair of bytes, so the buffer it created is filled and never overrun,
    every sample lies in [-1, 1), and an odd last byte is ignored. *)
Theorem playNextAudio_fills_buffer (pcmData : bytes) :
  (playNextAudio pcmData = None <-> len pcmData < 2)
  /\ (forall samples, playNextAudio pcmData = Some samples ->
        Z.of_nat (length samples) = numSamples pcmData
        /\ 0 < numSamples pcmData
        /\ Forall (fun v => (- (1) <= v)%Q /\ (v < 1)%Q) samples)
  /\ (forall b, Nat.Even (length pcmData) ->
        channelData (pcmData ++ [b]) = channelData pcmData).
Proof.
  destruct (channelData_pairs pcmData) as [Hcount Hodd].
  assert (Hrange : Forall (fun v => (- (1) <= v)%Q /\ (v < 1)%Q)
                     (channelData pcmData)).
  { clear Hcount Hodd.
    assert (Hgen : forall n (p : bytes), (length p <= n)%nat ->
              Forall (fun v => (- (1) <= v)%Q /\ (v < 1)%Q) (channelData p)).
    { induction n as [|n IH]; intros p Hlen.
      - destruct p; [constructor|cbn in Hlen; lia].
      - destruct p as [|lo [|hi rest]]; try constructor.
        + destruct (channel_value_bounds lo hi) as [H1 H2]. split; assumption.
        + apply IH. cbn in Hlen. lia. }
    apply (Hgen (length pcmData)). lia. }
  pose proof (len_nonneg pcmData) as Hpos.
  unfold playNextAudio, numSamples.
  destruct (len pcmData <? 2) eqn:Hshort;
    [apply Z.ltb_lt in Hshort | apply Z.ltb_ge in Hshort].
  - split; [tauto|]. split; [discriminate|exact Hodd].
  - assert (Hdiv : 0 < len pcmData / 2) by (apply Z.div_str_pos; lia).
    replace (len pcmData / 2 =? 0) with false by (symmetry; apply Z.eqb_neq; lia).
    split; [split; [discriminate|lia]|].
    split; [|exact Hodd].
    intros samples [= <-]. repeat split; assumption.
Qed.

End Playback.
